(** * Lab5/driver.js: merchant acceptance and double-spend adjudication

    A shallow embedding of [parseCoin], [acceptCoin] and [determineCheater]
    of [src/Lab5/driver.js], and the properties of the e-cash protocol that
    these three functions decide.

    JavaScript strings are modelled as [string] (a sequence of characters,
    [ascii] standing for the code unit), arrays as [list string] living in a
    store of array objects addressed by reference, thrown exceptions as the
    left summand of a result, and the effects of the code ([console.log],
    [Math.random], calls of [coin.getRis], [Array.prototype.push]) as
    explicit state passing over a [World]. *)

From Stdlib Require Import ZArith Ascii String DecimalString.
From stdpp Require Import base list strings.

Local Open Scope string_scope.
Local Open Scope list_scope.

(** ** Strings the way the code uses them *)

Module Str.

(** Characters of [s] from position [n] on: [s.substring(n)]; past the
    end it is the empty string, as in JavaScript. *)
Fixpoint substring_from (n : nat) (s : string) : string :=
  match n, s with
  | O, _ => s
  | S _, EmptyString => EmptyString
  | S k, String _ r => substring_from k r
  end.

(** [s.startsWith(p)]. *)
Definition startsWith (s p : string) : bool := String.prefix p s.

(** [s] holds no occurrence of the character [c]. *)
Fixpoint free_of (c : ascii) (s : string) : bool :=
  match s with
  | EmptyString => true
  | String a r => negb (Ascii.eqb a c) && free_of c r
  end.

(** [s.split(c)] for a one-character separator: the fields between the
    occurrences of [c], in order; never the empty array ([''.split('-')]
    is [['']]). *)
Fixpoint split (c : ascii) (s : string) : list string :=
  match s with
  | EmptyString => [EmptyString]
  | String a r =>
      if Ascii.eqb a c then EmptyString :: split c r
      else match split c r with
           | f :: fs => String a f :: fs
           | [] => [String a EmptyString]
           end
  end.

(** [a.join(c)] on an array of strings. *)
Fixpoint join (c : ascii) (l : list string) : string :=
  match l with
  | [] => EmptyString
  | [x] => x
  | x :: r => x +:+ String c (join c r)
  end.

(** A template literal's rendering of a non-negative integer. *)
Definition of_nat (n : nat) : string := NilZero.string_of_uint (Nat.to_uint n).

(** JavaScript truthiness of a string: only [''] is falsy. *)
Definition truthy (s : string) : bool :=
  match s with EmptyString => false | String _ _ => true end.

End Str.

(** ** Exceptions, the program state and the monad of the code *)

(** What the code throws: [new Error(message)] by a [throw] statement, or
    the [TypeError] the runtime raises on a member access or a conversion
    of [undefined]. *)
Inductive exn : Type :=
| Error (message : string)
| TypeError (message : string).

(** A reference to an array object. *)
Definition ref := nat.

(** The state the code runs in: the store of array objects, the random
    source ([random k] is the value of the [k]-th evaluation of
    [Math.random() < 0.5]) with the number of draws made so far, the lines
    written by [console.log], and the shares requested from coins through
    [coin.getRis] as pairs of side ([true] for left) and index. *)
Record World : Type := mkWorld {
  heap : list (list string);
  random : nat -> bool;
  draws : nat;
  console : list string;
  asked : list (bool * nat)
}.

Definition M (A : Type) : Type := World -> World * (exn + A).

Definition ret {A} (a : A) : M A := fun w => (w, inr a).

Definition throw {A} (e : exn) : M A := fun w => (w, inl e).

Definition bind {A B} (m : M A) (k : A -> M B) : M B :=
  fun w => match m w with
           | (w', inr a) => k a w'
           | (w', inl e) => (w', inl e)
           end.

Definition lift {A} (r : exn + A) : M A := fun w => (w, r).

Notation "x <- m ;; k" := (bind m (fun x => k))
  (at level 100, m at next level, right associativity).
Notation "m ;;; k" := (bind m (fun _ => k))
  (at level 100, right associativity).

(** [console.log(line)]. *)
Definition console_log (line : string) : M unit :=
  fun w => (mkWorld (heap w) (random w) (draws w) (console w ++ [line]) (asked w), inr tt).

(** [Math.random() < 0.5]: consumes one draw of the random source. *)
Definition Math_random_lt_half : M bool :=
  fun w => (mkWorld (heap w) (random w) (S (draws w)) (console w) (asked w),
            inr (random w (draws w))).

(** [[]]: a fresh, empty array object. *)
Definition new_array : M ref :=
  fun w => (mkWorld (heap w ++ [[]]) (random w) (draws w) (console w) (asked w),
            inr (length (heap w))).

Definition no_array {A} : M A :=
  throw (TypeError "Cannot read properties of undefined").

(** [a.push(v)]: mutates the array object in place. *)
Definition array_push (a : ref) (v : string) : M unit :=
  fun w => match heap w !! a with
           | Some l => (mkWorld (<[a := l ++ [v]]> (heap w)) (random w) (draws w)
                          (console w) (asked w), inr tt)
           | None => no_array w
           end.

(** [a[i]]: [None] is [undefined], the value of an index out of range. *)
Definition array_get (a : ref) (i : nat) : M (option string) :=
  fun w => match heap w !! a with
           | Some l => (w, inr (l !! i))
           | None => no_array w
           end.

(** [a.length]. *)
Definition array_length (a : ref) : M nat :=
  fun w => match heap w !! a with
           | Some l => (w, inr (length l))
           | None => no_array w
           end.

(** [a.join(c)]. *)
Definition array_join (c : ascii) (a : ref) : M string :=
  fun w => match heap w !! a with
           | Some l => (w, inr (Str.join c l))
           | None => no_array w
           end.

(** [for (let i = start; i < start + count; i++) body], where the body
    answers [Some v] for [return v] and [None] to go on; a [throw] in the
    body leaves the loop. The loop answers [None] when it ran to its end. *)
Fixpoint for_from {R} (count start : nat) (body : nat -> M (option R)) : M (option R) :=
  match count with
  | O => ret None
  | S k => r <- body start ;;
           match r with
           | Some v => ret (Some v)
           | None => for_from k (S start) body
           end
  end.

(** [for (let i = 0; i < n; i++) body]. *)
Definition for_lt {R} (n : nat) (body : nat -> M (option R)) : M (option R) :=
  for_from n 0 body.

(** A value that may be [undefined], inside a template literal. *)
Definition template (o : option string) : string :=
  match o with Some s => s | None => "undefined" end.

(** [x !== s] for a value [x] that may be [undefined]. *)
Definition strict_ne (x : option string) (s : string) : bool :=
  match x with Some y => negb (String.eqb y s) | None => true end.

(** ** What driver.js imports *)

(** The constants of [coin.js] and the library functions the driver calls,
    none of which is among the sources: they are taken as parameters.
    [blindSignatures_verify s m] is
    [blindSignatures.verify({unblinded: s, N, E, message: m})] for the bank's
    key of the module, [utils_decryptOTP k c] is
    [utils.decryptOTP({key: Buffer.from(k), ciphertext: Buffer.from(c),
    returnType: 'string'})], which may throw, and [JSON_stringify] is the
    built-in of that name on a value that is an array of strings or
    [undefined]. *)
Class Primitives : Type := {
  COIN_RIS_LENGTH : nat;
  IDENT_STR : string;
  BANK_STR : string;
  utils_hash : string -> string;
  utils_decryptOTP : string -> string -> exn + string;
  blindSignatures_verify : Z -> string -> bool;
  JSON_stringify : option (list string) -> string
}.

(** The fields of a [Coin] object that the driver reads. [leftIdent] and
    [rightIdent] are [None] when the property is missing. [amount] holds
    the number [coin.amount] as the string that a template literal renders
    it to ([20], [0.5], [1e+21], [1e-7]), which is the only use that the
    driver makes of it. *)
Record Coin : Type := mkCoin {
  guid : string;
  amount : string;
  coinString : string;
  signature : Z;
  leftIdent : option (list string);
  rightIdent : option (list string)
}.

(** Modelled from the spec: [Coin.toString] of coin.js, which is not among
    the sources; it returns the canonical string form, stable over the life
    of the coin. *)
Definition toString (coin : Coin) : string := coinString coin.

(** Modelled from the spec: [Coin.getRis] of coin.js, which is not among the
    sources; it returns [leftIdent[i]] or [rightIdent[i]], [undefined] when
    there is none. The request is recorded in [asked]. *)
Definition getRis (coin : Coin) (isLeft : bool) (i : nat) : M (option string) :=
  fun w => (mkWorld (heap w) (random w) (draws w) (console w) (asked w ++ [(isLeft, i)]),
            inr (match (if isLeft then leftIdent coin else rightIdent coin) with
                 | Some shares => shares !! i
                 | None => None
                 end)).

(** The outcomes of adjudication, and the line that reports each. *)
Inductive Outcome : Type :=
| MerchantCheating (guid : string)
| SpenderCheating (guid : string) (identity : string)
| Inconclusive (guid : string).

Definition report (o : Outcome) : string :=
  match o with
  | MerchantCheating g => "Merchant is cheating with coin " +:+ g
  | SpenderCheating g cheaterId =>
      "Double spending detected for coin " +:+ g +:+ "! Cheater is " +:+ cheaterId
  | Inconclusive g => "No clear cheater identified for coin " +:+ g
  end.

Section Driver.

Context {P : Primitives}.

(** ** parseCoin *)

Definition parseCoin (s : string) : exn + (list string * list string) :=
  let fields := Str.split "-" s in
  let cnst := fields !! 0 in
  let leftHashes := fields !! 3 in
  let rightHashes := fields !! 4 in
  if strict_ne cnst BANK_STR then
    inl (Error ("Invalid identity string: " +:+ template cnst +:+ " received, but "
                +:+ BANK_STR +:+ " expected"))
  else
    let lh := match leftHashes with
              | Some h => if Str.truthy h then Str.split "," h else []
              | None => []
              end in
    let rh := match rightHashes with
              | Some h => if Str.truthy h then Str.split "," h else []
              | None => []
              end in
    inr (lh, rh).

(** ** acceptCoin *)

Definition side_name (selectLeft : bool) : string :=
  if selectLeft then "leftIdent" else "rightIdent".

Definition hash_count_message (l r : nat) : string :=
  "Invalid number of identity string hashes: expected " +:+ Str.of_nat COIN_RIS_LENGTH
  +:+ ", got left=" +:+ Str.of_nat l +:+ ", right=" +:+ Str.of_nat r.

Definition missing_ident_message (coin : Coin) : string :=
  "Coin object missing leftIdent or rightIdent properties: leftIdent="
  +:+ JSON_stringify (leftIdent coin) +:+ ", rightIdent=" +:+ JSON_stringify (rightIdent coin).

Definition missing_preimage_message (i : nat) (selectLeft : bool) : string :=
  "Missing preimage for index " +:+ Str.of_nat i +:+ " in " +:+ side_name selectLeft.

Definition ris_hash_message (i : nat) (selectedHash : option string) (got : string) : string :=
  "Invalid RIS hash at index " +:+ Str.of_nat i +:+ ": expected " +:+ template selectedHash
  +:+ ", got " +:+ got.

Definition accepted_message (coin : Coin) (selectLeft : bool) (len : nat) : string :=
  "Coin accepted: GUID=" +:+ guid coin +:+ ", Amount=" +:+ amount coin
  +:+ ", Selected=" +:+ (if selectLeft then "left" else "right")
  +:+ ", RIS length=" +:+ Str.of_nat len.

(** The body of the loop of [acceptCoin] at index [i]. *)
Definition reveal (coin : Coin) (leftHashes rightHashes : list string)
    (selectLeft : bool) (ris : ref) (i : nat) : M (option unit) :=
  let selectedHash := if selectLeft then leftHashes !! i else rightHashes !! i in
  preimage <- getRis coin selectLeft i ;;
  match preimage with
  | None => throw (Error (missing_preimage_message i selectLeft))
  | Some p =>
      if negb (Str.truthy p) then throw (Error (missing_preimage_message i selectLeft))
      else if strict_ne selectedHash (utils_hash p) then
        throw (Error (ris_hash_message i selectedHash (utils_hash p)))
      else
        array_push ris p ;;;
        ret None
  end.

Definition acceptCoin (coin : Coin) : M ref :=
  let isValid := blindSignatures_verify (signature coin) (toString coin) in
  if negb isValid then throw (Error "Invalid coin signature")
  else
    hashes <- lift (parseCoin (toString coin)) ;;
    let '(leftHashes, rightHashes) := hashes in
    if negb (Nat.eqb (length leftHashes) COIN_RIS_LENGTH)
       || negb (Nat.eqb (length rightHashes) COIN_RIS_LENGTH) then
      throw (Error (hash_count_message (length leftHashes) (length rightHashes)))
    else
      match leftIdent coin, rightIdent coin with
      | Some _, Some _ =>
          selectLeft <- Math_random_lt_half ;;
          ris <- new_array ;;
          for_lt COIN_RIS_LENGTH (reveal coin leftHashes rightHashes selectLeft ris) ;;;
          len <- array_length ris ;;
          console_log (accepted_message coin selectLeft len) ;;;
          ret ris
      | _, _ => throw (Error (missing_ident_message coin))
      end.

(** ** determineCheater *)

(** [Buffer.from(x)] for a string or [undefined]; on a string the
    conversion is part of [utils_decryptOTP]. *)
Definition Buffer_from (x : option string) : M string :=
  match x with
  | Some s => ret s
  | None => throw (TypeError "The first argument must be of type string or an instance of Buffer")
  end.

(** The body of the loop of [determineCheater] at index [i]. *)
Definition unmask (guid : string) (ris1 ris2 : ref) (i : nat) : M (option unit) :=
  x1 <- array_get ris1 i ;;
  key <- Buffer_from x1 ;;
  x2 <- array_get ris2 i ;;
  ciphertext <- Buffer_from x2 ;;
  xorResult <- lift (utils_decryptOTP key ciphertext) ;;
  if Str.startsWith xorResult IDENT_STR then
    let cheaterId := Str.substring_from (String.length IDENT_STR + 1) xorResult in
    console_log (report (SpenderCheating guid cheaterId)) ;;;
    ret (Some tt)
  else ret None.

Definition determineCheater (guid : string) (ris1 ris2 : ref) : M unit :=
  j1 <- array_join "," ris1 ;;
  j2 <- array_join "," ris2 ;;
  if String.eqb j1 j2 then
    console_log (report (MerchantCheating guid))
  else
    found <- for_lt COIN_RIS_LENGTH (unmask guid ris1 ris2) ;;
    match found with
    | Some _ => ret tt
    | None => console_log (report (Inconclusive guid))
    end.

End Driver.

(** ** A reference instance of the imports

    Small, executable stand-ins for what driver.js imports, on which the
    functions above can be run. *)

Module Reference.

Definition xor_ascii (a b : ascii) : ascii :=
  match a, b with
  | Ascii a0 a1 a2 a3 a4 a5 a6 a7, Ascii b0 b1 b2 b3 b4 b5 b6 b7 =>
      Ascii (xorb a0 b0) (xorb a1 b1) (xorb a2 b2) (xorb a3 b3)
            (xorb a4 b4) (xorb a5 b5) (xorb a6 b6) (xorb a7 b7)
  end.

(** Character-wise XOR, over the common length. *)
Fixpoint xor (a b : string) : string :=
  match a, b with
  | String x r, String y s => String (xor_ascii x y) (xor r s)
  | _, _ => EmptyString
  end.

(** Modelled from the spec: [utils.decryptOTP] of utils.js, which is not
    among the sources; the XOR primitive under the policy the spec
    recommends: operands of equal length, an error otherwise. *)
Definition decryptOTP (key ciphertext : string) : exn + string :=
  if Nat.eqb (String.length key) (String.length ciphertext) then inr (xor key ciphertext)
  else inl (Error "The length of the key must match the length of the ciphertext.").

Definition hex_digit (n : N) : ascii :=
  match n with
  | 0 => "0" | 1 => "1" | 2 => "2" | 3 => "3" | 4 => "4" | 5 => "5" | 6 => "6" | 7 => "7"
  | 8 => "8" | 9 => "9" | 10 => "a" | 11 => "b" | 12 => "c" | 13 => "d" | 14 => "e"
  | _ => "f"
  end%N%char.

(** A 16-bit polynomial checksum of the characters. *)
Fixpoint checksum (acc : N) (s : string) : N :=
  match s with
  | EmptyString => acc
  | String a r => checksum ((acc * 31 + N_of_ascii a) mod 65536)%N r
  end.

(** Modelled from the spec: [utils.hash] of utils.js, which is not among
    the sources; a deterministic digest string of fixed length (four
    hexadecimal digits of a checksum; it is not collision resistant). *)
Definition hash (s : string) : string :=
  let h := checksum 7 s in
  String (hex_digit (h / 4096)) (String (hex_digit ((h / 256) mod 16))
    (String (hex_digit ((h / 16) mod 16)) (String (hex_digit (h mod 16)) EmptyString)))%N.

(** The bank's key: a textbook RSA key pair. *)
Definition bank_N : Z := 3233.
Definition bank_E : Z := 17.
Definition bank_D : Z := 2753.

Fixpoint pow_mod (fuel : nat) (b e m : Z) : Z :=
  match fuel with
  | O => 1
  | S k => if (e <=? 0)%Z then 1 mod m
           else let h := pow_mod k ((b * b) mod m) (e / 2) m in
                if Z.odd e then (b * h) mod m else h
  end%Z.

Definition message_digest (m : string) : Z := Z.of_N (checksum 7 m) mod bank_N.

(** Modelled from the spec: [blindSignatures.sign] followed by
    [Coin.unblind], the signature as it stands after unblinding. *)
Definition sign (m : string) : Z := pow_mod 64 (message_digest m) bank_D bank_N.

(** Modelled from the spec: [blindSignatures.verify] on the bank's public
    parameters. *)
Definition verify (s : Z) (m : string) : bool :=
  (pow_mod 64 (s mod bank_N) bank_E bank_N =? message_digest m)%Z.

Definition quote : string := String (ascii_of_nat 34) EmptyString.

Definition stringify (v : option (list string)) : string :=
  match v with
  | None => "undefined"
  | Some l => "[" +:+ Str.join "," (map (fun s => quote +:+ s +:+ quote) l) +:+ "]"
  end.

#[export] Instance primitives : Primitives := {|
  COIN_RIS_LENGTH := 3;
  IDENT_STR := "IDENT";
  BANK_STR := "BANK";
  utils_hash := hash;
  utils_decryptOTP := decryptOTP;
  blindSignatures_verify := verify;
  JSON_stringify := stringify
|}.

(** Modelled from the spec: a coin with the given shares as coin.js,
    which is not among the sources, and the bank make it: the canonical
    string carries the hashes of the shares, and the signature is the
    bank's on that string. *)
Definition issue (amt : string) (id : string) (left right : list string) : Coin :=
  let s := BANK_STR +:+ "-" +:+ amt +:+ "-" +:+ id +:+ "-"
           +:+ Str.join "," (map hash left) +:+ "-" +:+ Str.join "," (map hash right) in
  mkCoin id amt s (sign s) (Some left) (Some right).

(** Modelled from the spec: the constructor of [Coin] in coin.js, which
    is not among the sources, followed by the bank's signature and
    [unblind]. The randomness of the constructor (the identifier and the
    one-time-pad keys, one per split index) is given as arguments. The
    left share is the identity tag encrypted under the key, the right
    share is the left share XOR the identity tag. *)
Definition construct (owner : string) (amt : string) (id : string) (keys : list string)
  : Coin :=
  let identityTag := IDENT_STR +:+ ":" +:+ owner in
  let left := map (xor identityTag) keys in
  let right := map (fun l => xor l identityTag) left in
  issue amt id left right.

Definition alice_coin : Coin :=
  construct "alice" "20" "c0ffee" ["k3y-0f-al1c"; "0123456789a"; "zyxwvutsrqp"].

Definition alice_left : list string :=
  map (xor "IDENT:alice") ["k3y-0f-al1c"; "0123456789a"; "zyxwvutsrqp"].

Definition alice_right : list string := ["k3y-0f-al1c"; "0123456789a"; "zyxwvutsrqp"].

Definition world0 (rnd : nat -> bool) : World := mkWorld [] rnd 0 [] [].

(** Alice's coin with another signature. *)
Definition unsigned_coin : Coin :=
  mkCoin (guid alice_coin) (amount alice_coin) (coinString alice_coin)
    (signature alice_coin + 1) (leftIdent alice_coin) (rightIdent alice_coin).

(** A coin with the given string, signed by the bank, with the shares of
    Alice's coin. *)
Definition coin_of_string (s : string) : Coin :=
  mkCoin "c0ffee" "20" s (sign s) (leftIdent alice_coin) (rightIdent alice_coin).

(** Alice's coin with its left share at index 1 replaced. *)
Definition swapped_share_coin : Coin :=
  mkCoin (guid alice_coin) (amount alice_coin) (coinString alice_coin)
    (signature alice_coin) (Some (<[1 := "not-a-share"]> alice_left))
    (rightIdent alice_coin).

(** A signed coin whose two sides carry the same commitments, and
    shares that do not hash to them. *)
Definition forged_coin : Coin :=
  let s := "BANK-20-c0ffee-0000,0000,0000-0000,0000,0000" in
  mkCoin "c0ffee" "20" s (sign s) (Some ["a"; "b"; "c"]) (Some ["a"; "b"; "c"]).

(** Two arrays of three strings each that differ at two indices and
    have the same comma-joined rendering. *)
Definition comma_ris1 : list string := ["a,b"; "c"; "d"].
Definition comma_ris2 : list string := ["a"; "b,c"; "d"].

(** A signed coin whose shares are these two arrays, with their
    hashes as commitments. *)
Definition comma_coin : Coin := issue "20" "c0ffee" comma_ris1 comma_ris2.

(** Two arrays whose XOR at index 0 is [IDENT_STR], another character
    and a name, and at index 1 the identity tag of Alice. *)
Definition stray_ris1 : list string := ["k3y-0f-al"; "0123456789a"; "zyxwvutsrqp"].
Definition stray_ris2 : list string :=
  [xor "k3y-0f-al" "IDENTXbob"; xor "0123456789a" "IDENT:alice"; "ponmlkjihgf"].

(** A world holding the two given arrays at the references 0 and 1. *)
Definition world_of (ris1 ris2 : list string) : World :=
  mkWorld [ris1; ris2] (fun _ => true) 0 [] [].

(** Alice's coin without its last left share. *)
Definition short_share_coin : Coin :=
  mkCoin (guid alice_coin) (amount alice_coin) (coinString alice_coin)
    (signature alice_coin) (Some (take 2 alice_left)) (rightIdent alice_coin).

(** Alice's coin without its [rightIdent] property. *)
Definition no_right_coin : Coin :=
  mkCoin (guid alice_coin) (amount alice_coin) (coinString alice_coin)
    (signature alice_coin) (leftIdent alice_coin) None.

(** Two arrays whose XOR results are computed and begin with no
    marker. *)
Definition plain_ris1 : list string := ["abc"; "def"; "ghi"].
Definition plain_ris2 : list string := ["abd"; "deg"; "ghj"].

(** A coin issued like Alice's, with an identifier that holds a dash. *)
Definition dashed_coin : Coin := issue "20" "123e4567-e89b" alice_left alice_right.

(** The driver's script: two acceptances, then adjudication. *)
Definition double_spend (coin : Coin) : M unit :=
  ris1 <- acceptCoin coin ;;
  ris2 <- acceptCoin coin ;;
  determineCheater (guid coin) ris1 ris2.

End Reference.

(** ** What the adjudicator computes *)

(** The world after one more line on the console. *)
Definition logged (line : string) (w : World) : World :=
  mkWorld (heap w) (random w) (draws w) (console w ++ [line]) (asked w).

Section Adjudication.

Context {P : Primitives}.

(** The XOR result of the loop of [determineCheater] at index [i], or
    what is thrown there. *)
Definition xor_at (r1 r2 : list string) (i : nat) : exn + string :=
  match r1 !! i, r2 !! i with
  | Some key, Some ciphertext => utils_decryptOTP key ciphertext
  | _, _ => inl (TypeError "The first argument must be of type string or an instance of Buffer")
  end.

(** The identity found by the loop over the indices [start], ...,
    [start + count - 1], if any. *)
Fixpoint scan (count start : nat) (r1 r2 : list string) : exn + option string :=
  match count with
  | O => inr None
  | S k =>
      match xor_at r1 r2 start with
      | inl e => inl e
      | inr x =>
          if Str.startsWith x IDENT_STR
          then inr (Some (Str.substring_from (String.length IDENT_STR + 1) x))
          else scan k (S start) r1 r2
      end
  end.

(** The outcome of [determineCheater] as a function of the contents of
    the two arrays. *)
Definition adjudicate (g : string) (r1 r2 : list string) : exn + Outcome :=
  if String.eqb (Str.join "," r1) (Str.join "," r2) then inr (MerchantCheating g)
  else match scan COIN_RIS_LENGTH 0 r1 r2 with
       | inl e => inl e
       | inr (Some cheaterId) => inr (SpenderCheating g cheaterId)
       | inr None => inr (Inconclusive g)
       end.

(** [i] is the first split index at which the XOR result begins with
    [prefix], and [x] is the XOR result there. *)
Definition first_tagged (prefix : string) (r1 r2 : list string) (i : nat) (x : string) : Prop :=
  i < COIN_RIS_LENGTH /\ xor_at r1 r2 i = inr x /\ Str.startsWith x prefix = true /\
  forall j, j < i -> exists y, xor_at r1 r2 j = inr y /\ Str.startsWith y prefix = false.

(** The adjudicator reports, at the first split index whose XOR result
    begins with [prefix], the remainder of that result after [prefix]. *)
Definition reports_remainder_after (prefix : string) : Prop :=
  forall g w p1 p2 r1 r2 i x,
    heap w !! p1 = Some r1 -> heap w !! p2 = Some r2 ->
    Str.join "," r1 <> Str.join "," r2 ->
    first_tagged prefix r1 r2 i x ->
    determineCheater g p1 p2 w =
      (logged (report (SpenderCheating g (Str.substring_from (String.length prefix) x))) w,
       inr tt).

End Adjudication.

(** ** What acceptance computes *)

Section Acceptance.

Context {P : Primitives}.

(** The shares of the coin on one side. *)
Definition shares_of (coin : Coin) (selectLeft : bool) : option (list string) :=
  if selectLeft then leftIdent coin else rightIdent coin.

(** The commitments of one side. *)
Definition commitments_of (leftHashes rightHashes : list string) (selectLeft : bool)
  : list string :=
  if selectLeft then leftHashes else rightHashes.

(** The share that the loop of [acceptCoin] pushes at index [i], or what
    it throws there. *)
Definition revealed (coin : Coin) (leftHashes rightHashes : list string)
    (selectLeft : bool) (i : nat) : exn + string :=
  match (match shares_of coin selectLeft with Some s => s !! i | None => None end) with
  | None => inl (Error (missing_preimage_message i selectLeft))
  | Some p =>
      if negb (Str.truthy p) then inl (Error (missing_preimage_message i selectLeft))
      else if strict_ne (commitments_of leftHashes rightHashes selectLeft !! i) (utils_hash p)
           then inl (Error (ris_hash_message i
                              (commitments_of leftHashes rightHashes selectLeft !! i)
                              (utils_hash p)))
           else inr p
  end.

(** The shares pushed by the loop over the indices [start], ...,
    [start + count - 1], and what stopped it, if anything did. *)
Fixpoint gather (coin : Coin) (leftHashes rightHashes : list string) (selectLeft : bool)
    (count start : nat) : list string * option exn :=
  match count with
  | O => ([], None)
  | S k =>
      match revealed coin leftHashes rightHashes selectLeft start with
      | inl e => ([], Some e)
      | inr p =>
          let r := gather coin leftHashes rightHashes selectLeft k (S start) in
          (p :: r.1, r.2)
      end
  end.

(** The requests [(side, start)], ..., [(side, start + n - 1)]. *)
Definition requests (selectLeft : bool) (start n : nat) : list (bool * nat) :=
  map (pair selectLeft) (seq start n).

(** The result of [acceptCoin] in closed form. *)
Definition acceptance (coin : Coin) (w : World) : World * (exn + ref) :=
  if negb (blindSignatures_verify (signature coin) (toString coin)) then
    (w, inl (Error "Invalid coin signature"))
  else
    match parseCoin (toString coin) with
    | inl e => (w, inl e)
    | inr (leftHashes, rightHashes) =>
        if negb (Nat.eqb (length leftHashes) COIN_RIS_LENGTH)
           || negb (Nat.eqb (length rightHashes) COIN_RIS_LENGTH) then
          (w, inl (Error (hash_count_message (length leftHashes) (length rightHashes))))
        else
          match leftIdent coin, rightIdent coin with
          | Some _, Some _ =>
              let selectLeft := random w (draws w) in
              let r := gather coin leftHashes rightHashes selectLeft COIN_RIS_LENGTH 0 in
              match r.2 with
              | Some e =>
                  (mkWorld (heap w ++ [r.1]) (random w) (S (draws w)) (console w)
                     (asked w ++ requests selectLeft 0 (S (length r.1))), inl e)
              | None =>
                  (mkWorld (heap w ++ [r.1]) (random w) (S (draws w))
                     (console w ++ [accepted_message coin selectLeft (length r.1)])
                     (asked w ++ requests selectLeft 0 (length r.1)), inr (length (heap w)))
              end
          | _, _ => (w, inl (Error (missing_ident_message coin)))
          end
    end.

End Acceptance.

(** ** Coins as the spec describes them *)

Section Coins.

Context {P : Primitives}.

(** Modelled from the spec: the identity tag that coin.js, which is not
    among the sources, splits into shares: the fixed marker, a
    delimiter, and the identity of the spender. [determineCheater] skips
    [IDENT_STR] and the colon. *)
Definition identityTag (owner : string) : string := IDENT_STR +:+ ":" +:+ owner.

(** Modelled from the spec: the canonical string form that [Coin] of
    coin.js builds, [BANK_STR-amount-guid-leftHashes-rightHashes] with the
    hashes of each side joined by commas. *)
Definition canonical (amt : string) (id : string) (leftHashes rightHashes : list string)
  : string :=
  BANK_STR +:+ "-" +:+ amt +:+ "-" +:+ id +:+ "-"
  +:+ Str.join "," leftHashes +:+ "-" +:+ Str.join "," rightHashes.

(** A digest string: not empty, and free of the two separators of the
    canonical form. *)
Definition digest_like (h : string) : bool :=
  Str.truthy h && Str.free_of "-" h && Str.free_of "," h.

(** Modelled from the spec: a coin for [owner] as the constructor of
    coin.js, which is not among the sources, builds it, with the left
    shares [L] and the right shares [R]: [COIN_RIS_LENGTH] shares on each
    side, each as long as the identity tag of the owner that it encrypts,
    and at every index the XOR of the two shares, taken in either order,
    is that identity tag. *)
Record Constructed (owner : string) (coin : Coin) (L R : list string) : Prop := {
  constructed_left : leftIdent coin = Some L;
  constructed_right : rightIdent coin = Some R;
  constructed_left_length : length L = COIN_RIS_LENGTH;
  constructed_right_length : length R = COIN_RIS_LENGTH;
  constructed_share_length :
    Forall (fun share => String.length share = String.length (identityTag owner)) (L ++ R);
  constructed_xor :
    Forall2 (fun l r => utils_decryptOTP l r = inr (identityTag owner)
                        /\ utils_decryptOTP r l = inr (identityTag owner)) L R
}.

(** Modelled from the spec: a freshly issued, correctly signed coin, with
    the left shares [L] and the right shares [R], as coin.js, which is
    not among the sources, and the bank produce it: [COIN_RIS_LENGTH]
    shares on each side, none empty; the canonical string built from the
    amount, the identifier and the hashes of the shares; and a signature
    that verifies on the canonical string. *)
Record Issued (coin : Coin) (L R : list string) : Prop := {
  issued_left : leftIdent coin = Some L;
  issued_right : rightIdent coin = Some R;
  issued_left_length : length L = COIN_RIS_LENGTH;
  issued_right_length : length R = COIN_RIS_LENGTH;
  issued_shares : forallb Str.truthy (L ++ R) = true;
  issued_string :
    toString coin =
      canonical (amount coin) (guid coin) (map utils_hash L) (map utils_hash R);
  issued_signature : blindSignatures_verify (signature coin) (toString coin) = true
}.

(** The fields of the canonical string of the coin hold none of its
    separators: there is no dash in [BANK_STR], in the rendering of the
    amount or in the identifier, and each hash of a share is a digest
    string. *)
Definition separators_kept_out (coin : Coin) (L R : list string) : bool :=
  Str.free_of "-" BANK_STR && Str.free_of "-" (amount coin) && Str.free_of "-" (guid coin)
  && forallb digest_like (map utils_hash (L ++ R)).

(** Honest single spend as the spec states it: one acceptance of a
    freshly issued, correctly signed coin returns an array of
    [COIN_RIS_LENGTH] shares. *)
Definition honest_acceptance_as_stated : Prop :=
  forall coin L R w,
    Issued coin L R ->
    exists w' ris shares,
      acceptCoin coin w = (w', inr ris)
      /\ heap w' !! ris = Some shares
      /\ length shares = COIN_RIS_LENGTH.

(** The XOR of a string with itself cancels: its result does not begin
    with [IDENT_STR]. *)
Definition self_xor_cancels : Prop :=
  forall a x, utils_decryptOTP a a = inr x -> Str.startsWith x IDENT_STR = false.

(** The double-spend property as the spec states it: after two
    acceptances of a coin constructed for [owner], the adjudicator
    reports spender cheating with the identity of the owner, or, the two
    acceptances having chosen the same side, that it is inconclusive. *)
Definition double_spend_as_stated : Prop :=
  forall owner coin L R w w1 w2 ris1 ris2,
    Constructed owner coin L R ->
    acceptCoin coin w = (w1, inr ris1) ->
    acceptCoin coin w1 = (w2, inr ris2) ->
    determineCheater (guid coin) ris1 ris2 w2 =
      (logged (report (SpenderCheating (guid coin) owner)) w2, inr tt)
    \/ (random w (draws w) = random w1 (draws w1)
        /\ determineCheater (guid coin) ris1 ris2 w2 =
             (logged (report (Inconclusive (guid coin))) w2, inr tt)).

(** The message of the hash-mismatch error names the side that was
    challenged: the side can be read off the message. *)
Definition mismatch_names_side : Prop :=
  exists side_of : string -> bool,
    forall coin w w' i expected got,
      acceptCoin coin w = (w', inl (Error (ris_hash_message i expected got))) ->
      side_of (ris_hash_message i expected got) = random w (draws w).

(** A field of the coin string that is absent or empty. *)
Definition absent_or_empty (field : option string) : Prop :=
  field = None \/ field = Some EmptyString.

End Coins.

(** ** The script at the end of Lab5/driver.js *)

Section Script.

Context {P : Primitives}.

(** The script of Lab5/driver.js from the first acceptance on, for the
    coin as it stands after [coin.unblind()]: two merchants accept the
    coin, the bank adjudicates on the two arrays, an empty line is
    written, and the bank adjudicates on the first array given twice. *)
Definition deposits (coin : Coin) : M unit :=
  ris1 <- acceptCoin coin ;;
  ris2 <- acceptCoin coin ;;
  determineCheater (guid coin) ris1 ris2 ;;;
  console_log EmptyString ;;;
  determineCheater (guid coin) ris1 ris1.

End Script.

(** ** driver.js: the documents handed to the spy agency *)

Module CutAndChoose.

(** Characters outside ASCII are held as the bytes of their UTF-8
    encoding. *)
Definition makeDocument (coverName : string) : string :=
  "🔏 Document for Agent: " +:+ coverName +:+ "
🎖️ Status: Full Diplomatic Immunity Granted".

Definition coverNames : list string :=
  ["Jonathan Drake"; "Sophia West"; "Alexander Knight"; "Victoria Hale";
   "Christopher Vaughn"; "Natalie Pierce"; "Daniel Mercer"; "Isla Montgomery";
   "Ethan Caldwell"; "Scarlett Hayes"].

Definition documents : list string := map makeDocument coverNames.

(** [l.map((x, i) => (i === selected ? undefined : x))], the two arrays
    that the callback passes to [verifyAndSign]; [None] is [undefined]. *)
Definition all_but {A} (selected : nat) (l : list A) : list (option A) :=
  imap (fun i x => if Nat.eqb i selected then None else Some x) l.

End CutAndChoose.

(** * Properties *)

(** ** The string operations on examples *)

Example split_fields : Str.split "-" "B-20-g-a,b-c,d" = ["B"; "20"; "g"; "a,b"; "c,d"].
Proof. reflexivity. Qed.

Example split_empty : Str.split "-" EmptyString = [EmptyString].
Proof. reflexivity. Qed.

Example split_trailing : Str.split "-" "B-20-" = ["B"; "20"; EmptyString].
Proof. reflexivity. Qed.

Example join_three : Str.join "," ["a"; "b"; "c"] = "a,b,c".
Proof. reflexivity. Qed.

Example of_nat_12 : Str.of_nat 12 = "12" /\ Str.of_nat 0 = "0".
Proof. repeat split. Qed.

Example substring_past_end : Str.substring_from 6 "IDENT" = EmptyString.
Proof. reflexivity. Qed.


(** ** The adjudicator in closed form *)

Section AdjudicationFacts.

Context {P : Primitives}.

Lemma unmask_run g p1 p2 r1 r2 i w :
  heap w !! p1 = Some r1 -> heap w !! p2 = Some r2 ->
  unmask g p1 p2 i w =
    match xor_at r1 r2 i with
    | inl e => (w, inl e)
    | inr x =>
        if Str.startsWith x IDENT_STR
        then (logged (report (SpenderCheating g
                 (Str.substring_from (String.length IDENT_STR + 1) x))) w, inr (Some tt))
        else (w, inr None)
    end.
Proof.
  intros H1 H2. unfold unmask, bind, array_get, xor_at. rewrite H1.
  destruct (r1 !! i) as [key|]; cbn; [|reflexivity].
  rewrite H2. destruct (r2 !! i) as [c|]; cbn; [|reflexivity].
  unfold lift. destruct (utils_decryptOTP key c) as [e|x]; [reflexivity|].
  destruct (Str.startsWith x IDENT_STR); reflexivity.
Qed.

Lemma scan_run g p1 p2 r1 r2 w :
  heap w !! p1 = Some r1 -> heap w !! p2 = Some r2 ->
  forall count start,
    for_from count start (unmask g p1 p2) w =
      match scan count start r1 r2 with
      | inl e => (w, inl e)
      | inr (Some cheaterId) => (logged (report (SpenderCheating g cheaterId)) w, inr (Some tt))
      | inr None => (w, inr None)
      end.
Proof.
  intros H1 H2. induction count as [|k IH]; intros start; [reflexivity|].
  cbn [for_from scan]. unfold bind at 1. rewrite (unmask_run g p1 p2 r1 r2 start w H1 H2).
  destruct (xor_at r1 r2 start) as [e|x]; [reflexivity|].
  destruct (Str.startsWith x IDENT_STR); [reflexivity|]. apply IH.
Qed.

(** [determineCheater] reads the two arrays, and either throws what
    [adjudicate] throws, leaving the world as it was, or writes the report
    of the outcome of [adjudicate] as one line and returns. *)
Lemma determineCheater_run g p1 p2 r1 r2 w :
  heap w !! p1 = Some r1 -> heap w !! p2 = Some r2 ->
  determineCheater g p1 p2 w =
    match adjudicate g r1 r2 with
    | inl e => (w, inl e)
    | inr o => (logged (report o) w, inr tt)
    end.
Proof.
  intros H1 H2. unfold determineCheater, adjudicate, bind at 1 2, array_join.
  rewrite H1, H2.
  destruct (String.eqb (Str.join "," r1) (Str.join "," r2)); [reflexivity|].
  unfold bind, for_lt. rewrite (scan_run g p1 p2 r1 r2 w H1 H2).
  destruct (scan COIN_RIS_LENGTH 0 r1 r2) as [e|[id|]]; reflexivity.
Qed.

End AdjudicationFacts.

(** ** The adjudicator *)

Section AdjudicatorClaims.

Context {P : Primitives}.

Lemma logged_nil_lines (w : World) :
  mkWorld (heap w) (random w) (draws w) (console w ++ []) (asked w) = w.
Proof. destruct w; cbn. now rewrite app_nil_r. Qed.

(** Two arrays with the same contents, or one array given twice, are
    reported as merchant cheating. *)
Lemma determineCheater_identical g p1 p2 r w :
  heap w !! p1 = Some r -> heap w !! p2 = Some r ->
  determineCheater g p1 p2 w = (logged (report (MerchantCheating g)) w, inr tt).
Proof.
  intros H1 H2. rewrite (determineCheater_run g p1 p2 r r w H1 H2).
  unfold adjudicate. now rewrite String.eqb_refl.
Qed.

(** Merchant cheating is reported exactly when the comma-joined
    renderings of the two arrays are the same string. *)
Lemma adjudicate_merchant g r1 r2 :
  adjudicate g r1 r2 = inr (MerchantCheating g) <-> Str.join "," r1 = Str.join "," r2.
Proof.
  unfold adjudicate.
  destruct (String.eqb_spec (Str.join "," r1) (Str.join "," r2)) as [E|N].
  - tauto.
  - split; [|tauto]. destruct (scan COIN_RIS_LENGTH 0 r1 r2) as [e|[id|]]; discriminate.
Qed.

Lemma scan_first_tagged r1 r2 i x :
  xor_at r1 r2 i = inr x -> Str.startsWith x IDENT_STR = true ->
  forall count start,
    start <= i -> i < start + count ->
    (forall j, start <= j -> j < i ->
               exists y, xor_at r1 r2 j = inr y /\ Str.startsWith y IDENT_STR = false) ->
    scan count start r1 r2 =
      inr (Some (Str.substring_from (String.length IDENT_STR + 1) x)).
Proof.
  intros Hx Ht. induction count as [|k IH]; intros start Hle Hlt Hbefore; [lia|].
  cbn [scan]. destruct (decide (start = i)) as [->|Hne].
  - now rewrite Hx, Ht.
  - destruct (Hbefore start) as (y & Hy & Hn); [lia..|].
    rewrite Hy, Hn. apply IH; [lia..|]. intros j ? ?. apply Hbefore; lia.
Qed.

Lemma substring_from_delimited (a b : string) (c : ascii) :
  Str.substring_from (String.length a + 1) (a +:+ String c b) = b.
Proof.
  induction a as [|d a IH]; cbn; [now destruct b|exact IH].
Qed.

(** C1, as amended. When the two arrays are not reported as merchant
    cheating, then at the first split index [i] whose XOR result [x]
    begins with [IDENT_STR] (every XOR before it having been computed
    and not beginning with it), [determineCheater] reports spender
    cheating, with the identity that is left of [x] after [IDENT_STR] and
    the one character that follows it, and does nothing else: the world
    is the one before plus that line. When [x] is [IDENT_STR], a
    delimiter and an identity, the identity reported is that one. *)
Theorem C1_first_tagged_index g w p1 p2 r1 r2 i x :
  heap w !! p1 = Some r1 -> heap w !! p2 = Some r2 ->
  Str.join "," r1 <> Str.join "," r2 ->
  first_tagged IDENT_STR r1 r2 i x ->
  determineCheater g p1 p2 w =
    (logged (report (SpenderCheating g
              (Str.substring_from (String.length IDENT_STR + 1) x))) w, inr tt)
  /\ forall c identity, x = IDENT_STR +:+ String c identity ->
       Str.substring_from (String.length IDENT_STR + 1) x = identity.
Proof.
  intros H1 H2 Hne (Hi & Hx & Ht & Hbefore). split.
  - rewrite (determineCheater_run g p1 p2 r1 r2 w H1 H2). unfold adjudicate.
    destruct (String.eqb_spec (Str.join "," r1) (Str.join "," r2)) as [E|_]; [contradiction|].
    rewrite (scan_first_tagged r1 r2 i x Hx Ht COIN_RIS_LENGTH 0); [reflexivity|lia|lia|].
    intros j _ Hj. now apply Hbefore.
  - intros c identity ->. apply substring_from_delimited.
Qed.

(** C9. The adjudicator is a function of the identifier and of the
    contents of the two arrays: run in any two worlds on arrays of the
    same contents, it returns or throws the same, and writes the same
    lines; it leaves the store of arrays, the random source and its
    number of draws, and the record of requested shares as they were. *)
Theorem C9_adjudicator_pure g r1 r2 w w' p1 p2 q1 q2 :
  heap w !! p1 = Some r1 -> heap w !! p2 = Some r2 ->
  heap w' !! q1 = Some r1 -> heap w' !! q2 = Some r2 ->
  exists lines result,
    determineCheater g p1 p2 w =
      (mkWorld (heap w) (random w) (draws w) (console w ++ lines) (asked w), result)
    /\ determineCheater g q1 q2 w' =
      (mkWorld (heap w') (random w') (draws w') (console w' ++ lines) (asked w'), result).
Proof.
  intros H1 H2 H1' H2'.
  rewrite (determineCheater_run g p1 p2 r1 r2 w H1 H2).
  rewrite (determineCheater_run g q1 q2 r1 r2 w' H1' H2').
  destruct (adjudicate g r1 r2) as [e|o].
  - exists [], (inl e). now rewrite !logged_nil_lines.
  - exists [report o], (inr tt). split; reflexivity.
Qed.

End AdjudicatorClaims.

(** ** Acceptance in closed form *)

Section AcceptanceFacts.

Context {P : Primitives}.

Lemma reveal_run coin lh rh side ris i acc w :
  heap w !! ris = Some acc ->
  reveal coin lh rh side ris i w =
    match revealed coin lh rh side i with
    | inl e => (mkWorld (heap w) (random w) (draws w) (console w)
                  (asked w ++ [(side, i)]), inl e)
    | inr p => (mkWorld (<[ris := acc ++ [p]]> (heap w)) (random w) (draws w) (console w)
                  (asked w ++ [(side, i)]), inr None)
    end.
Proof.
  intros Hris. unfold reveal, revealed, bind at 1, getRis, shares_of, commitments_of.
  destruct side; cbn.
  all: match goal with
       | |- context [match ?o with Some _ => _ | None => None end] => destruct o as [S|]
       end; [|reflexivity].
  all: destruct (S !! i) as [p|]; [|reflexivity].
  all: destruct (Str.truthy p); cbn; [|reflexivity].
  all: match goal with |- context [strict_ne ?a ?b] => destruct (strict_ne a b) end;
    [reflexivity|].
  all: unfold bind, array_push; cbn; now rewrite Hris.
Qed.

Lemma requests_cons side start n :
  (side, start) :: requests side (S start) n = requests side start (S n).
Proof. reflexivity. Qed.

Lemma gather_run coin lh rh side ris :
  forall count start acc w,
    heap w !! ris = Some acc ->
    for_from count start (reveal coin lh rh side ris) w =
      let r := gather coin lh rh side count start in
      match r.2 with
      | Some e => (mkWorld (<[ris := acc ++ r.1]> (heap w)) (random w) (draws w) (console w)
                     (asked w ++ requests side start (S (length r.1))), inl e)
      | None => (mkWorld (<[ris := acc ++ r.1]> (heap w)) (random w) (draws w) (console w)
                   (asked w ++ requests side start (length r.1)), inr None)
      end.
Proof.
  induction count as [|k IH]; intros start acc w Hris.
  - cbn. rewrite !app_nil_r, list_insert_id by exact Hris. now destruct w.
  - cbn [for_from gather]. unfold bind at 1.
    rewrite (reveal_run coin lh rh side ris start acc w Hris).
    destruct (revealed coin lh rh side start) as [e|p]; cbn [fst snd].
    + cbn. rewrite app_nil_r, list_insert_id by exact Hris. reflexivity.
    + pose proof (lookup_lt_Some _ _ _ Hris) as Hlt.
      rewrite (IH (S start) (acc ++ [p])); cbn [heap random draws console asked].
      2:{ now apply list_lookup_insert_eq. }
      rewrite list_insert_insert_eq, <- !app_assoc. cbn [app length].
      destruct (gather coin lh rh side k (S start)).2;
        now rewrite <- requests_cons.
Qed.

Lemma insert_fresh_array (h : list (list string)) (s : list string) :
  <[length h := [] ++ s]> (h ++ [[]]) = h ++ [s].
Proof.
  rewrite insert_app_r_alt by lia. now rewrite Nat.sub_diag.
Qed.

(** [acceptCoin] is [acceptance]. *)
Lemma acceptCoin_run coin w : acceptCoin coin w = acceptance coin w.
Proof.
  unfold acceptCoin, acceptance.
  destruct (negb (blindSignatures_verify (signature coin) (toString coin))); [reflexivity|].
  unfold bind at 1, lift.
  destruct (parseCoin (toString coin)) as [e|[lh rh]]; [reflexivity|].
  destruct (negb (Nat.eqb (length lh) COIN_RIS_LENGTH)
            || negb (Nat.eqb (length rh) COIN_RIS_LENGTH)); [reflexivity|].
  destruct (leftIdent coin) as [L|]; [|reflexivity].
  destruct (rightIdent coin) as [R|]; [|reflexivity].
  unfold bind at 1, Math_random_lt_half. unfold bind at 1, new_array.
  cbn [heap random draws console asked]. unfold bind at 1, for_lt.
  rewrite (gather_run coin lh rh (random w (draws w)) (length (heap w))
             COIN_RIS_LENGTH 0 []).
  2:{ cbn [heap]. rewrite lookup_app_r by lia. now rewrite Nat.sub_diag. }
  cbn [heap random draws console asked]. rewrite insert_fresh_array.
  destruct (gather coin lh rh (random w (draws w)) COIN_RIS_LENGTH 0) as [s [e|]];
    cbn [fst snd]; [reflexivity|].
  unfold bind, array_length, console_log, ret; cbn [heap random draws console asked].
  rewrite lookup_app_r by lia. now rewrite Nat.sub_diag.
Qed.

End AcceptanceFacts.

(** ** Facts about the loop of acceptance *)

Section GatherFacts.

Context {P : Primitives}.

Lemma strict_ne_false (o : option string) (s : string) :
  strict_ne o s = false <-> o = Some s.
Proof.
  destruct o as [y|]; cbn; [|split; discriminate].
  destruct (String.eqb_spec y s) as [->|N]; cbn; split; congruence.
Qed.

Lemma revealed_inr coin lh rh side i p :
  revealed coin lh rh side i = inr p <->
  (exists sh, shares_of coin side = Some sh /\ sh !! i = Some p)
  /\ Str.truthy p = true
  /\ commitments_of lh rh side !! i = Some (utils_hash p).
Proof.
  unfold revealed. split.
  - destruct (shares_of coin side) as [sh|]; [|discriminate].
    destruct (sh !! i) as [q|] eqn:Hq; [|discriminate].
    destruct (Str.truthy q) eqn:Ht; cbn; [|discriminate].
    destruct (strict_ne _ _) eqn:Hs; [discriminate|].
    intros [= ->]. apply strict_ne_false in Hs. eauto.
  - intros ((sh & -> & ->) & -> & Hc). cbn.
    apply strict_ne_false in Hc. now rewrite Hc.
Qed.

(** A loop that ran to its end pushed one share for each index. *)
Lemma gather_success coin lh rh side :
  forall count start s,
    gather coin lh rh side count start = (s, None) ->
    length s = count
    /\ forall k p, s !! k = Some p -> revealed coin lh rh side (start + k) = inr p.
Proof.
  induction count as [|n IH]; intros start s; cbn [gather].
  - intros [= <-]. split; [reflexivity|]. intros k p Hk. now rewrite lookup_nil in Hk.
  - destruct (revealed coin lh rh side start) as [e|q] eqn:Hq; [discriminate|].
    destruct (gather coin lh rh side n (S start)) as [t r] eqn:Hg. cbn [fst snd].
    intros [= <- ->]. destruct (IH (S start) t Hg) as [Hlen Hall].
    split; [cbn; now rewrite Hlen|].
    intros [|k] p; cbn.
    + intros [= <-]. now rewrite Nat.add_0_r.
    + intros Hk. rewrite <- Nat.add_succ_comm. now apply Hall.
Qed.

(** When every index passes, the loop pushes the shares in order. *)
Lemma gather_complete coin lh rh side sh :
  forall count start,
    (forall k, k < count ->
       exists p, sh !! (start + k) = Some p /\ revealed coin lh rh side (start + k) = inr p) ->
    gather coin lh rh side count start = (take count (drop start sh), None).
Proof.
  induction count as [|n IH]; intros start Hall; cbn [gather]; [reflexivity|].
  destruct (Hall 0) as (p & Hp & Hr); [lia|]. rewrite Nat.add_0_r in Hp, Hr.
  rewrite Hr, (IH (S start)).
  - cbn [fst snd]. f_equal. rewrite (drop_S _ _ _ Hp). reflexivity.
  - intros k Hk. rewrite Nat.add_succ_comm. apply Hall. lia.
Qed.

(** The loop stops at the first index that does not pass, with the
    shares before it pushed. *)
Lemma gather_first_failure coin lh rh side sh i e :
  revealed coin lh rh side i = inl e ->
  forall count start,
    start <= i -> i < start + count ->
    (forall j, start <= j -> j < i ->
       exists p, sh !! j = Some p /\ revealed coin lh rh side j = inr p) ->
    gather coin lh rh side count start = (take (i - start) (drop start sh), Some e).
Proof.
  intros He. induction count as [|n IH]; intros start Hle Hlt Hbefore; [lia|].
  cbn [gather]. destruct (decide (start = i)) as [->|Hne].
  - rewrite He, Nat.sub_diag. reflexivity.
  - destruct (Hbefore start) as (p & Hp & Hr); [lia..|].
    rewrite Hr, (IH (S start)); [|lia..|intros j ? ?; apply Hbefore; lia].
    cbn [fst snd]. f_equal. rewrite (drop_S _ _ _ Hp).
    replace (i - start) with (S (i - S start)) by lia. reflexivity.
Qed.

End GatherFacts.

(** ** Merchant acceptance *)

Section AcceptanceClaims.

Context {P : Primitives}.

(** C5. The signature is verified before anything else: when the
    verification of [coin.signature] against the canonical string answers
    false, [acceptCoin] throws the invalid-signature error and the world
    is as it was, so no share was requested, no side was drawn and
    nothing was revealed. *)
Theorem C5_invalid_signature coin w :
  blindSignatures_verify (signature coin) (toString coin) = false ->
  acceptCoin coin w = (w, inl (Error "Invalid coin signature")).
Proof.
  intros Hv. rewrite acceptCoin_run. unfold acceptance. now rewrite Hv.
Qed.

Lemma split_head (c : ascii) (s : string) : exists f, Str.split c s !! 0 = Some f.
Proof.
  destruct s as [|a r]; cbn; [eauto|].
  destruct (Ascii.eqb a c); [eauto|]. destruct (Str.split c r); eauto.
Qed.

Lemma parseCoin_wrong_tag s cnst :
  Str.split "-" s !! 0 = Some cnst -> cnst <> BANK_STR ->
  parseCoin s = inl (Error ("Invalid identity string: " +:+ cnst +:+ " received, but "
                            +:+ BANK_STR +:+ " expected")).
Proof.
  intros Hc Hne. unfold parseCoin. rewrite Hc. cbn.
  destruct (String.eqb_spec cnst BANK_STR) as [E|_]; [contradiction|reflexivity].
Qed.

Lemma acceptCoin_hash_count coin w lh rh :
  blindSignatures_verify (signature coin) (toString coin) = true ->
  parseCoin (toString coin) = inr (lh, rh) ->
  length lh <> COIN_RIS_LENGTH \/ length rh <> COIN_RIS_LENGTH ->
  acceptCoin coin w = (w, inl (Error (hash_count_message (length lh) (length rh)))).
Proof.
  intros Hv Hp Hlen. rewrite acceptCoin_run. unfold acceptance. rewrite Hv, Hp. cbn.
  destruct (Nat.eqb_spec (length lh) COIN_RIS_LENGTH) as [El|_]; [|reflexivity].
  destruct (Nat.eqb_spec (length rh) COIN_RIS_LENGTH) as [Er|_]; [|reflexivity].
  tauto.
Qed.

(** C6. Parsing throws the error of a wrong identity string whenever the
    leading field of the string is not [BANK_STR], and so does the
    acceptance of a validly signed coin with such a string; the
    acceptance of a validly signed coin whose string parses throws the
    error of a wrong number of hashes whenever one of the two hash
    sequences has not [COIN_RIS_LENGTH] elements. In each case the world
    is as it was. *)
Theorem C6_malformed_coin :
  (forall s cnst,
      Str.split "-" s !! 0 = Some cnst -> cnst <> BANK_STR ->
      parseCoin s = inl (Error ("Invalid identity string: " +:+ cnst +:+ " received, but "
                                +:+ BANK_STR +:+ " expected")))
  /\ (forall coin w cnst,
      blindSignatures_verify (signature coin) (toString coin) = true ->
      Str.split "-" (toString coin) !! 0 = Some cnst -> cnst <> BANK_STR ->
      acceptCoin coin w =
        (w, inl (Error ("Invalid identity string: " +:+ cnst +:+ " received, but "
                        +:+ BANK_STR +:+ " expected"))))
  /\ (forall coin w leftHashes rightHashes,
      blindSignatures_verify (signature coin) (toString coin) = true ->
      parseCoin (toString coin) = inr (leftHashes, rightHashes) ->
      length leftHashes <> COIN_RIS_LENGTH \/ length rightHashes <> COIN_RIS_LENGTH ->
      acceptCoin coin w =
        (w, inl (Error ("Invalid number of identity string hashes: expected "
                        +:+ Str.of_nat COIN_RIS_LENGTH
                        +:+ ", got left=" +:+ Str.of_nat (length leftHashes)
                        +:+ ", right=" +:+ Str.of_nat (length rightHashes))))).
Proof.
  split; [exact parseCoin_wrong_tag|]. split.
  - intros coin w cnst Hv Hc Hne. rewrite acceptCoin_run. unfold acceptance.
    now rewrite Hv, (parseCoin_wrong_tag _ _ Hc Hne).
  - exact acceptCoin_hash_count.
Qed.

(** A run of [acceptCoin] that returns: one draw, a fresh array holding
    the first [COIN_RIS_LENGTH] shares of the side drawn, and the
    requests of these shares. *)
Lemma acceptCoin_returns coin w w' ris :
  acceptCoin coin w = (w', inr ris) ->
  let selectLeft := random w (draws w) in
  ris = length (heap w)
  /\ draws w' = S (draws w)
  /\ random w' = random w
  /\ asked w' = asked w ++ requests selectLeft 0 COIN_RIS_LENGTH
  /\ exists shares,
       shares_of coin selectLeft = Some shares
       /\ COIN_RIS_LENGTH <= length shares
       /\ heap w' = heap w ++ [take COIN_RIS_LENGTH shares].
Proof.
  rewrite acceptCoin_run. unfold acceptance.
  destruct (negb _); [discriminate|].
  destruct (parseCoin (toString coin)) as [e|[lh rh]]; [discriminate|].
  destruct (_ || _); [discriminate|].
  destruct (leftIdent coin) as [L|] eqn:HL; [|discriminate].
  destruct (rightIdent coin) as [R|] eqn:HR; [|discriminate].
  cbn zeta.
  destruct (gather coin lh rh (random w (draws w)) COIN_RIS_LENGTH 0) as [s [e|]] eqn:Hg;
    cbn [fst snd]; [discriminate|].
  intros [= <- <-]. cbn [heap random draws console asked].
  destruct (gather_success _ _ _ _ _ _ _ Hg) as [Hlen Hall].
  assert (exists sh, shares_of coin (random w (draws w)) = Some sh) as [sh HS].
  { unfold shares_of. destruct (random w (draws w)); eauto. }
  assert (Hlookup : forall k, k < COIN_RIS_LENGTH -> sh !! k = s !! k).
  { intros k Hk. destruct (lookup_lt_is_Some_2 s k) as [p Hp]; [lia|].
    rewrite Hp. apply Hall in Hp. apply revealed_inr in Hp as ((sh' & HS' & Hp) & _ & _).
    cbn in Hp. congruence. }
  assert (Hge : COIN_RIS_LENGTH <= length sh).
  { destruct (decide (COIN_RIS_LENGTH <= length sh)) as [|Hn]; [assumption|].
    assert (Hk : length sh < COIN_RIS_LENGTH) by lia.
    specialize (Hlookup _ Hk). rewrite (lookup_ge_None_2 sh) in Hlookup by lia.
    symmetry in Hlookup. apply lookup_ge_None_1 in Hlookup. lia. }
  assert (Hs : s = take COIN_RIS_LENGTH sh).
  { apply list_eq. intros k. destruct (decide (k < COIN_RIS_LENGTH)) as [Hk|Hk].
    - rewrite lookup_take_lt by assumption. symmetry. now apply Hlookup.
    - rewrite lookup_take_ge by lia. apply lookup_ge_None_2. lia. }
  rewrite Hlen. repeat split. exists sh. subst s. repeat split; assumption.
Qed.

(** C8. In a run of [acceptCoin] that returns, the random source is
    drawn exactly once, and with the side [selectLeft] of that draw the
    returned array holds the first [COIN_RIS_LENGTH] shares of the coin on
    that side, in order; the shares requested from the coin are those of
    that side at the indices 0, ..., [COIN_RIS_LENGTH - 1], in order. *)
Theorem C8_single_side coin w w' ris :
  acceptCoin coin w = (w', inr ris) ->
  let selectLeft := random w (draws w) in
  draws w' = S (draws w)
  /\ random w' = random w
  /\ asked w' = asked w ++ requests selectLeft 0 COIN_RIS_LENGTH
  /\ exists shares returned,
       shares_of coin selectLeft = Some shares
       /\ heap w' !! ris = Some returned
       /\ length returned = COIN_RIS_LENGTH
       /\ forall i, i < COIN_RIS_LENGTH -> returned !! i = shares !! i.
Proof.
  intros Hrun. destruct (acceptCoin_returns coin w w' ris Hrun)
    as (-> & Hd & Hr & Ha & sh & Hs & Hge & Hh).
  repeat split; try assumption.
  exists sh, (take COIN_RIS_LENGTH sh). repeat split; try assumption.
  - rewrite Hh, lookup_app_r by lia. now rewrite Nat.sub_diag.
  - now apply length_take_le.
  - intros i Hi. now apply lookup_take_lt.
Qed.

End AcceptanceClaims.

(** ** Splitting and joining *)

Section SplitJoin.

Lemma free_of_app c a b :
  Str.free_of c (a +:+ b) = Str.free_of c a && Str.free_of c b.
Proof.
  induction a as [|x a IH]; simpl; [reflexivity|]. rewrite IH. now rewrite andb_assoc.
Qed.

Lemma split_free c s : Str.free_of c s = true -> Str.split c s = [s].
Proof.
  induction s as [|a r IH]; simpl; [reflexivity|].
  destruct (Ascii.eqb a c); simpl; [discriminate|]. intros H. now rewrite IH.
Qed.

Lemma split_app c a b :
  Str.free_of c a = true ->
  Str.split c (a +:+ String c b) = a :: Str.split c b.
Proof.
  induction a as [|x a IH]; simpl.
  - now rewrite Ascii.eqb_refl.
  - destruct (Ascii.eqb x c); simpl; [discriminate|]. intros H. now rewrite IH.
Qed.

Lemma split_app_sep c a b :
  Str.free_of c a = true ->
  Str.split c (a +:+ String c EmptyString +:+ b) = a :: Str.split c b.
Proof. exact (split_app c a b). Qed.

Lemma split_join c l :
  l <> [] -> forallb (Str.free_of c) l = true -> Str.split c (Str.join c l) = l.
Proof.
  induction l as [|x l IH]; [congruence|]. intros _. cbn [forallb].
  intros [Hx Hl]%andb_prop. destruct l as [|y l].
  - cbn. now apply split_free.
  - change (Str.join c (x :: y :: l)) with (x +:+ String c (Str.join c (y :: l))).
    rewrite split_app by assumption. f_equal. now apply IH.
Qed.

Lemma free_of_join c d l :
  Ascii.eqb d c = false ->
  forallb (Str.free_of c) l = true -> Str.free_of c (Str.join d l) = true.
Proof.
  intros Hd. induction l as [|x l IH]; [reflexivity|]. cbn [forallb].
  intros [Hx Hl]%andb_prop. destruct l as [|y l]; [exact Hx|].
  change (Str.join d (x :: y :: l)) with (x +:+ String d (Str.join d (y :: l))).
  rewrite free_of_app, Hx. cbn. rewrite Hd. cbn. now apply IH.
Qed.

Lemma truthy_join c l :
  l <> [] -> forallb Str.truthy l = true -> Str.truthy (Str.join c l) = true.
Proof.
  destruct l as [|x l]; [congruence|]. intros _. cbn [forallb].
  intros [Hx _]%andb_prop. destruct l; [exact Hx|].
  change (Str.join c (x :: s :: l)) with (x +:+ String c (Str.join c (s :: l))).
  destruct x; [discriminate|reflexivity].
Qed.

End SplitJoin.

(** ** Parsing the canonical string, and the coins of the spec *)

Section CoinClaims.

Context {P : Primitives}.

Lemma parseCoin_bank_tag s :
  Str.split "-" s !! 0 = Some BANK_STR ->
  parseCoin s =
    inr (match Str.split "-" s !! 3 with
         | Some h => if Str.truthy h then Str.split "," h else []
         | None => []
         end,
         match Str.split "-" s !! 4 with
         | Some h => if Str.truthy h then Str.split "," h else []
         | None => []
         end).
Proof.
  intros Hc. unfold parseCoin. rewrite Hc. cbn. now rewrite String.eqb_refl.
Qed.

(** C10. On a string whose leading field is [BANK_STR], [parseCoin]
    throws nothing: it returns two arrays, the left one empty when the
    fourth field is absent or empty, the right one empty when the fifth
    field is. The rejection comes from the length check of [acceptCoin]:
    when [COIN_RIS_LENGTH] is not zero, the acceptance of a validly signed
    coin with such a string, one of the two fields being absent or
    empty, throws the error of a wrong number of hashes. *)
Theorem C10_missing_hash_segments s :
  Str.split "-" s !! 0 = Some BANK_STR ->
  exists leftHashes rightHashes,
    parseCoin s = inr (leftHashes, rightHashes)
    /\ (absent_or_empty (Str.split "-" s !! 3) -> leftHashes = [])
    /\ (absent_or_empty (Str.split "-" s !! 4) -> rightHashes = [])
    /\ forall coin w,
         toString coin = s ->
         blindSignatures_verify (signature coin) s = true ->
         COIN_RIS_LENGTH <> 0 ->
         absent_or_empty (Str.split "-" s !! 3) \/ absent_or_empty (Str.split "-" s !! 4) ->
         acceptCoin coin w =
           (w, inl (Error (hash_count_message (length leftHashes) (length rightHashes)))).
Proof.
  intros Hc. eexists _, _. split; [exact (parseCoin_bank_tag s Hc)|].
  assert (Hl : forall o : option string, absent_or_empty o ->
            match o with
            | Some h => if Str.truthy h then Str.split "," h else []
            | None => []
            end = []).
  { intros o [->| ->]; reflexivity. }
  split; [apply Hl|]. split; [apply Hl|].
  intros coin w Hs Hv Hn Hmiss. apply acceptCoin_hash_count.
  - now rewrite Hs.
  - rewrite Hs. exact (parseCoin_bank_tag s Hc).
  - destruct Hmiss as [H|H]; [left|right]; rewrite (Hl _ H); cbn; congruence.
Qed.

Lemma digest_like_parts l :
  forallb digest_like l = true ->
  forallb Str.truthy l = true /\ forallb (Str.free_of "-") l = true
  /\ forallb (Str.free_of ",") l = true.
Proof.
  induction l as [|h l IH]; cbn [forallb]; [auto|].
  intros [Hh Hl]%andb_prop. destruct (IH Hl) as (H1 & H2 & H3).
  unfold digest_like in Hh. apply andb_prop in Hh as [[Ht Hd]%andb_prop Hc].
  now rewrite H1, H2, H3, Ht, Hd, Hc.
Qed.

Lemma hashes_of_segment l :
  forallb digest_like l = true ->
  (if Str.truthy (Str.join "," l) then Str.split "," (Str.join "," l) else []) = l.
Proof.
  intros (Ht & _ & Hc)%digest_like_parts. destruct l as [|h l]; [reflexivity|].
  rewrite truthy_join by (congruence || assumption). now apply split_join.
Qed.

(** Parsing the canonical string gives back the hashes it was built
    from. *)
Lemma parseCoin_canonical amt id lh rh :
  Str.free_of "-" BANK_STR = true -> Str.free_of "-" amt = true ->
  Str.free_of "-" id = true ->
  forallb digest_like lh = true -> forallb digest_like rh = true ->
  parseCoin (canonical amt id lh rh) = inr (lh, rh).
Proof.
  intros Hb Ha Hi Hl Hr.
  assert (Hfields : Str.split "-" (canonical amt id lh rh) =
                      [BANK_STR; amt; id; Str.join "," lh; Str.join "," rh]).
  { unfold canonical.
    rewrite !split_app_sep; try assumption.
    - rewrite split_free; [reflexivity|].
      apply free_of_join; [reflexivity|]. now apply digest_like_parts in Hr.
    - apply free_of_join; [reflexivity|]. now apply digest_like_parts in Hl. }
  rewrite parseCoin_bank_tag by now rewrite Hfields.
  rewrite Hfields. cbn [lookup list_lookup]. cbn.
  now rewrite !hashes_of_segment.
Qed.

Lemma forallb_app_parts {A} (f : A -> bool) (l k : list A) :
  forallb f (l ++ k) = true -> forallb f l = true /\ forallb f k = true.
Proof. rewrite forallb_app. apply andb_prop. Qed.

Lemma forallb_lookup {A} (f : A -> bool) (l : list A) i x :
  forallb f l = true -> l !! i = Some x -> f x = true.
Proof.
  rewrite forallb_forall. intros H Hi. apply H, list_elem_of_In.
  eapply list_elem_of_lookup_2. exact Hi.
Qed.

Lemma issued_parses coin L R :
  Issued coin L R -> separators_kept_out coin L R = true ->
  parseCoin (toString coin) = inr (map utils_hash L, map utils_hash R).
Proof.
  intros I Hsep. rewrite (issued_string _ _ _ I).
  unfold separators_kept_out in Hsep.
  apply andb_prop in Hsep as [[[Hb Ha]%andb_prop Hg]%andb_prop Hd].
  rewrite map_app in Hd. apply forallb_app_parts in Hd as [Hl Hr].
  now apply parseCoin_canonical.
Qed.

(** C4, as amended. One call of [acceptCoin] on a freshly issued,
    correctly signed coin whose canonical string keeps its separators out
    of its fields (no dash in [BANK_STR], in the rendering of the amount
    or in the identifier, and hashes that are non-empty and hold neither
    dash nor comma) returns, whatever the world and the side drawn: it
    returns a fresh array that holds the shares of the coin on the side
    drawn, in order, exactly [COIN_RIS_LENGTH] of them, and each of them
    hashes to the commitment at its index on that side, as parsed from
    the canonical string. *)
Theorem C4_honest_acceptance coin L R w :
  Issued coin L R ->
  separators_kept_out coin L R = true ->
  let selectLeft := random w (draws w) in
  let shares := if selectLeft then L else R in
  exists w' ris leftHashes rightHashes,
    acceptCoin coin w = (w', inr ris)
    /\ heap w' !! ris = Some shares
    /\ length shares = COIN_RIS_LENGTH
    /\ parseCoin (toString coin) = inr (leftHashes, rightHashes)
    /\ forall i share,
         shares !! i = Some share ->
         commitments_of leftHashes rightHashes selectLeft !! i = Some (utils_hash share).
Proof.
  intros I Hsep selectLeft shares.
  pose proof (issued_parses coin L R I Hsep) as Hparse.
  assert (Hshares : shares_of coin selectLeft = Some shares).
  { unfold shares_of, shares. destruct selectLeft;
      [apply (issued_left _ _ _ I)|apply (issued_right _ _ _ I)]. }
  assert (Hlen : length shares = COIN_RIS_LENGTH).
  { unfold shares. destruct selectLeft;
      [apply (issued_left_length _ _ _ I)|apply (issued_right_length _ _ _ I)]. }
  assert (Htruthy : forallb Str.truthy shares = true).
  { pose proof (issued_shares _ _ _ I) as [Hl Hr]%forallb_app_parts.
    unfold shares. now destruct selectLeft. }
  assert (Hcommit : forall i share, shares !! i = Some share ->
            commitments_of (map utils_hash L) (map utils_hash R) selectLeft !! i
            = Some (utils_hash share)).
  { intros i share Hi. unfold commitments_of, shares in *.
    destruct selectLeft; change (map utils_hash) with (fmap (M:=list) utils_hash);
      now rewrite list_lookup_fmap, Hi. }
  assert (Hgather : gather coin (map utils_hash L) (map utils_hash R) selectLeft
                      COIN_RIS_LENGTH 0 = (shares, None)).
  { rewrite (gather_complete _ _ _ _ shares).
    - rewrite drop_0, take_ge by lia. reflexivity.
    - intros k Hk. cbn [Nat.add].
      destruct (lookup_lt_is_Some_2 shares k) as [p Hp]; [lia|].
      exists p. split; [assumption|]. apply revealed_inr. repeat split.
      + eauto.
      + eapply forallb_lookup; eassumption.
      + now apply Hcommit. }
  eexists _, (length (heap w)), (map utils_hash L), (map utils_hash R).
  rewrite acceptCoin_run. unfold acceptance.
  rewrite (issued_signature _ _ _ I), Hparse. cbn [negb].
  rewrite !length_map, (issued_left_length _ _ _ I), (issued_right_length _ _ _ I).
  rewrite Nat.eqb_refl. cbn [negb orb].
  rewrite (issued_left _ _ _ I), (issued_right _ _ _ I). cbn zeta.
  fold selectLeft. rewrite Hgather. cbn [fst snd].
  split; [reflexivity|]. cbn [heap]. split.
  { rewrite lookup_app_r by lia. now rewrite Nat.sub_diag. }
  repeat split; assumption.
Qed.

(** What the code does on a share that does not hash to its commitment.
    In the acceptance of a validly signed coin whose string parses into
    [COIN_RIS_LENGTH] hashes on each side and which has its two arrays of
    shares, let [i] be the first split index at which the hash of the
    share of the side drawn is not the commitment [expected] of that side
    (the shares before it being there, not empty and hashing to their
    commitments, and the one at [i] being there and not empty). Then
    [acceptCoin] throws the hash-mismatch error, whose message holds the
    index [i], the commitment expected and the hash obtained, and no
    other text that depends on the run; the shares requested are those of
    the side drawn at the indices 0, ..., [i], and the shares before [i]
    are in the array. *)
Lemma acceptCoin_hash_mismatch coin w leftHashes rightHashes shares i share expected :
  blindSignatures_verify (signature coin) (toString coin) = true ->
  parseCoin (toString coin) = inr (leftHashes, rightHashes) ->
  length leftHashes = COIN_RIS_LENGTH -> length rightHashes = COIN_RIS_LENGTH ->
  is_Some (leftIdent coin) -> is_Some (rightIdent coin) ->
  let selectLeft := random w (draws w) in
  shares_of coin selectLeft = Some shares ->
  i < COIN_RIS_LENGTH ->
  shares !! i = Some share -> Str.truthy share = true ->
  commitments_of leftHashes rightHashes selectLeft !! i = Some expected ->
  expected <> utils_hash share ->
  (forall j, j < i ->
     exists q, shares !! j = Some q /\ Str.truthy q = true
               /\ commitments_of leftHashes rightHashes selectLeft !! j
                  = Some (utils_hash q)) ->
  exists w',
    acceptCoin coin w =
      (w', inl (Error ("Invalid RIS hash at index " +:+ Str.of_nat i +:+ ": expected "
                       +:+ expected +:+ ", got " +:+ utils_hash share)))
    /\ asked w' = asked w ++ requests selectLeft 0 (S i)
    /\ heap w' = heap w ++ [take i shares].
Proof.
  intros Hv Hp Hl Hr [L HL] [R HR] selectLeft Hs Hi Hshare Ht Hc Hne Hbefore.
  assert (Hfail : revealed coin leftHashes rightHashes selectLeft i =
            inl (Error (ris_hash_message i (Some expected) (utils_hash share)))).
  { unfold revealed. rewrite Hs, Hshare, Ht, Hc. cbn.
    destruct (String.eqb_spec expected (utils_hash share)); [contradiction|reflexivity]. }
  assert (Hg : gather coin leftHashes rightHashes selectLeft COIN_RIS_LENGTH 0
               = (take i shares, Some (Error (ris_hash_message i (Some expected)
                                                (utils_hash share))))).
  { rewrite (gather_first_failure _ _ _ _ shares i _ Hfail); [|lia..|].
    - now rewrite Nat.sub_0_r, drop_0.
    - intros j _ Hj. destruct (Hbefore j Hj) as (q & Hq & Htq & Hcq).
      exists q. split; [assumption|]. apply revealed_inr. eauto. }
  eexists. rewrite acceptCoin_run. unfold acceptance.
  rewrite Hv, Hp, Hl, Hr, Nat.eqb_refl, HL, HR. cbn [negb orb]. cbn zeta.
  fold selectLeft. rewrite Hg. cbn [fst snd].
  split; [reflexivity|]. cbn [asked heap].
  assert (length (take i shares) = i) as ->.
  { apply length_take_le. apply lookup_lt_Some in Hshare. lia. }
  split; reflexivity.
Qed.

End CoinClaims.

(** ** Double spending *)

Section DoubleSpend.

Context {P : Primitives}.

Lemma startsWith_app (a b : string) : Str.startsWith (a +:+ b) a = true.
Proof.
  unfold Str.startsWith. induction a as [|c a IH]; simpl; [now destruct b|].
  destruct (ascii_dec c c); [exact IH|contradiction].
Qed.

Lemma scan_tagged_at_0 r1 r2 n owner :
  xor_at r1 r2 0 = inr (identityTag owner) ->
  scan (S n) 0 r1 r2 = inr (Some owner).
Proof.
  intros Hx. cbn [scan]. rewrite Hx. unfold identityTag.
  rewrite startsWith_app. do 2 f_equal. apply substring_from_delimited.
Qed.

(** The three reports are told apart by their first character. *)
Lemma report_kind o o' :
  report o = report o' ->
  match o, o' with
  | MerchantCheating _, MerchantCheating _ => True
  | SpenderCheating _ _, SpenderCheating _ _ => True
  | Inconclusive _, Inconclusive _ => True
  | _, _ => False
  end.
Proof. destruct o, o'; cbn; intros [=]; exact I. Qed.

Lemma append_length (a b : string) :
  String.length (a +:+ b) = String.length a + String.length b.
Proof. induction a as [|c a IH]; simpl; [reflexivity|now rewrite IH]. Qed.

Lemma append_inj_length (x y a b : string) :
  String.length x = String.length y -> x +:+ a = y +:+ b -> x = y /\ a = b.
Proof.
  revert y. induction x as [|c x IH]; intros [|d y]; simpl; try discriminate.
  - auto.
  - intros [= Hlen] [= -> H]. destruct (IH y Hlen H) as [-> ->]. auto.
Qed.

Lemma append_cancel_l (p a b : string) : p +:+ a = p +:+ b -> a = b.
Proof. intros H. now apply append_inj_length in H. Qed.

(** On arrays of the same length whose elements all have the same
    length, joining is injective. *)
Lemma join_inj_same_length c n l1 :
  forall l2,
    length l1 = length l2 ->
    Forall (fun s => String.length s = n) l1 -> Forall (fun s => String.length s = n) l2 ->
    Str.join c l1 = Str.join c l2 -> l1 = l2.
Proof.
  induction l1 as [|x l1 IH]; intros [|y l2]; try discriminate; [reflexivity|].
  intros [= Hlen] [Hx H1]%Forall_cons_1 [Hy H2]%Forall_cons_1.
  destruct l1 as [|x' l1], l2 as [|y' l2]; try discriminate.
  - cbn. now intros ->.
  - change (Str.join c (x :: x' :: l1)) with (x +:+ String c (Str.join c (x' :: l1))).
    change (Str.join c (y :: y' :: l2)) with (y +:+ String c (Str.join c (y' :: l2))).
    intros H.
    apply append_inj_length in H as [-> [= H]]; [|congruence].
    f_equal. now apply IH.
Qed.

Lemma report_spender_inj g a b :
  report (SpenderCheating g a) = report (SpenderCheating g b) -> a = b.
Proof.
  cbn [report]. intros H. now do 3 apply append_cancel_l in H.
Qed.

(** The two sides of a constructed coin have different joined
    renderings. *)
Lemma constructed_sides_differ owner coin L R :
  COIN_RIS_LENGTH <> 0 -> self_xor_cancels -> Constructed owner coin L R ->
  Str.join "," L <> Str.join "," R.
Proof.
  intros Hn Hself C Hjoin.
  pose proof (constructed_left_length _ _ _ _ C) as HlenL.
  pose proof (constructed_right_length _ _ _ _ C) as HlenR.
  pose proof (constructed_share_length _ _ _ _ C) as [HL HR]%Forall_app.
  assert (L = R) as <-.
  { apply (join_inj_same_length "," (String.length (identityTag owner))); try assumption.
    congruence. }
  destruct (lookup_lt_is_Some_2 L 0) as [l Hl]; [lia|].
  destruct (Forall2_lookup_lr _ _ _ _ _ _ (constructed_xor _ _ _ _ C) Hl Hl) as [Hll _].
  apply Hself in Hll. unfold identityTag in Hll. now rewrite startsWith_app in Hll.
Qed.

(** The outcome of adjudication on two sides of a coin constructed for
    [owner]. *)
Lemma adjudicate_constructed owner coin L R g (s1 s2 : bool) :
  COIN_RIS_LENGTH <> 0 -> self_xor_cancels -> Constructed owner coin L R ->
  adjudicate g (if s1 then L else R) (if s2 then L else R) =
    inr (if Bool.eqb s1 s2 then MerchantCheating g else SpenderCheating g owner).
Proof.
  intros Hn Hself C. unfold adjudicate.
  pose proof (constructed_sides_differ owner coin L R Hn Hself C) as Hne.
  pose proof (constructed_left_length _ _ _ _ C) as HlenL.
  pose proof (constructed_right_length _ _ _ _ C) as HlenR.
  destruct (lookup_lt_is_Some_2 L 0) as [l Hl]; [lia|].
  destruct (lookup_lt_is_Some_2 R 0) as [r Hr]; [lia|].
  destruct (Forall2_lookup_lr _ _ _ _ _ _ (constructed_xor _ _ _ _ C) Hl Hr) as [Hlr Hrl].
  destruct COIN_RIS_LENGTH as [|n] eqn:HN; [contradiction|].
  destruct s1, s2; cbn [Bool.eqb]; rewrite ?String.eqb_refl; try reflexivity.
  - destruct (String.eqb_spec (Str.join "," L) (Str.join "," R)) as [E|_]; [contradiction|].
    rewrite (scan_tagged_at_0 L R n owner); [reflexivity|].
    unfold xor_at. now rewrite Hl, Hr.
  - destruct (String.eqb_spec (Str.join "," R) (Str.join "," L)) as [E|_];
      [symmetry in E; contradiction|].
    rewrite (scan_tagged_at_0 R L n owner); [reflexivity|].
    unfold xor_at. now rewrite Hl, Hr.
Qed.

(** The adjudication that follows two acceptances of a constructed
    coin. *)
Lemma double_spend_outcome owner coin L R w w1 w2 ris1 ris2 :
  COIN_RIS_LENGTH <> 0 -> self_xor_cancels -> Constructed owner coin L R ->
  acceptCoin coin w = (w1, inr ris1) ->
  acceptCoin coin w1 = (w2, inr ris2) ->
  determineCheater (guid coin) ris1 ris2 w2 =
    (logged (report (if Bool.eqb (random w (draws w)) (random w1 (draws w1))
                     then MerchantCheating (guid coin)
                     else SpenderCheating (guid coin) owner)) w2, inr tt)
  /\ is_Some (heap w2 !! ris1).
Proof.
  intros Hn Hself C Hrun1 Hrun2.
  destruct (acceptCoin_returns coin w w1 ris1 Hrun1)
    as (-> & _ & _ & _ & sh1 & Hs1 & _ & Hh1).
  destruct (acceptCoin_returns coin w1 w2 ris2 Hrun2)
    as (-> & _ & _ & _ & sh2 & Hs2 & _ & Hh2).
  pose proof (constructed_left_length _ _ _ _ C) as HlenL.
  pose proof (constructed_right_length _ _ _ _ C) as HlenR.
  assert (Hside : forall side sh, shares_of coin side = Some sh ->
            take COIN_RIS_LENGTH sh = if side then L else R).
  { intros side sh. unfold shares_of.
    destruct side; [rewrite (constructed_left _ _ _ _ C)|rewrite (constructed_right _ _ _ _ C)];
      intros [= <-]; apply take_ge; lia. }
  rewrite (Hside _ _ Hs1) in Hh1. rewrite (Hside _ _ Hs2) in Hh2.
  set (s1 := random w (draws w)) in *. set (s2 := random w1 (draws w1)) in *.
  assert (H1 : heap w2 !! length (heap w) = Some (if s1 then L else R)).
  { rewrite Hh2, Hh1, lookup_app_l by (rewrite length_app; cbn; lia).
    rewrite lookup_app_r by lia. now rewrite Nat.sub_diag. }
  assert (H2 : heap w2 !! length (heap w1) = Some (if s2 then L else R)).
  { rewrite Hh2, lookup_app_r by lia. now rewrite Nat.sub_diag. }
  split; [|eauto].
  rewrite (determineCheater_run (guid coin) _ _ _ _ w2 H1 H2).
  now rewrite (adjudicate_constructed owner coin L R (guid coin) s1 s2 Hn Hself C).
Qed.

(** C3, as amended. Take a coin constructed for [owner], with
    [COIN_RIS_LENGTH] not zero and an XOR that cancels a string with
    itself, and two acceptances of it that return. When the two
    acceptances drew opposite sides, the adjudicator reports spender
    cheating with exactly the identity of the owner. Whatever the sides
    drawn, when it reports spender cheating the identity is that of the
    owner: it does not report another identity. *)
Theorem C3_double_spend owner coin L R w w1 w2 ris1 ris2 :
  COIN_RIS_LENGTH <> 0 -> self_xor_cancels ->
  Constructed owner coin L R ->
  acceptCoin coin w = (w1, inr ris1) ->
  acceptCoin coin w1 = (w2, inr ris2) ->
  (random w (draws w) <> random w1 (draws w1) ->
   determineCheater (guid coin) ris1 ris2 w2 =
     (logged (report (SpenderCheating (guid coin) owner)) w2, inr tt))
  /\ (forall identity,
        determineCheater (guid coin) ris1 ris2 w2 =
          (logged (report (SpenderCheating (guid coin) identity)) w2, inr tt) ->
        identity = owner).
Proof.
  intros Hn Hself C Hrun1 Hrun2.
  destruct (double_spend_outcome owner coin L R w w1 w2 ris1 ris2 Hn Hself C Hrun1 Hrun2)
    as [Hout _].
  rewrite Hout. split.
  - intros Hne. destruct (random w (draws w)), (random w1 (draws w1)); cbn [Bool.eqb];
      congruence.
  - intros identity [= H]. apply app_inv_head in H. injection H as H.
    destruct (Bool.eqb (random w (draws w)) (random w1 (draws w1))).
    + destruct (report_kind (MerchantCheating (guid coin))
                  (SpenderCheating (guid coin) identity) H).
    + symmetry. exact (report_spender_inj (guid coin) owner identity H).
Qed.

End DoubleSpend.

(** ** The functions on the reference instance *)

Import Reference.

Lemma alice_constructed : Constructed "alice" alice_coin alice_left alice_right.
Proof.
  split; try reflexivity; repeat constructor.
Defined.

Lemma alice_separators : separators_kept_out alice_coin alice_left alice_right = true.
Proof. reflexivity. Defined.

Lemma dashed_issued : Issued dashed_coin alice_left alice_right.
Proof.
  split; reflexivity.
Defined.

Lemma xor_ascii_self a : xor_ascii a a = Ascii.zero.
Proof.
  destruct a. cbn. now rewrite !xorb_nilpotent.
Defined.

Lemma reference_self_xor_cancels : self_xor_cancels.
Proof.
  intros a x. cbn. unfold decryptOTP. rewrite Nat.eqb_refl. intros [= <-].
  destruct a as [|c a]; [reflexivity|]. cbn. now rewrite xor_ascii_self.
Defined.

Lemma alice_issued : Issued alice_coin alice_left alice_right.
Proof.
  split; reflexivity.
Defined.

Lemma alice_first_tagged : first_tagged IDENT_STR alice_left alice_right 0 "IDENT:alice".
Proof.
  repeat split.
  - cbn. lia.
  - intros j Hj. lia.
Defined.

Lemma C1_first_tagged_index_witness :
  first_tagged IDENT_STR alice_left alice_right 0 "IDENT:alice"
  /\ determineCheater "c0ffee" 0 1 (world_of alice_left alice_right) =
       (logged (report (SpenderCheating "c0ffee" "alice")) (world_of alice_left alice_right),
        inr tt).
Proof.
  split; [exact alice_first_tagged|].
  refine (proj1 (C1_first_tagged_index "c0ffee" (world_of alice_left alice_right) 0 1
                   alice_left alice_right 0 "IDENT:alice" eq_refl eq_refl _
                   alice_first_tagged)).
  intros H. vm_compute in H. discriminate H.
Defined.

(** C1, as stated, fails under both readings of the prefix. Read as
    [IDENT_STR], the prefix that the code tests for: on the two sides of
    Alice's coin the XOR result at index 0 is the identity tag of Alice,
    whose remainder after [IDENT_STR] begins with the colon, while the
    identity reported is [alice]. Read as [IDENT_STR] and the colon, the
    marker of the identity tag: on two arrays whose XOR result is
    [IDENTXbob] at index 0 and the identity tag of Alice at index 1, the
    first index whose XOR result begins with the marker is 1, while the
    code stops at index 0 and reports [bob]. *)
Lemma C1_counterexample :
  ~ reports_remainder_after IDENT_STR
  /\ ~ reports_remainder_after (IDENT_STR +:+ ":").
Proof.
  split; intros H.
  - specialize (H "c0ffee" (world_of alice_left alice_right) 0 1 alice_left alice_right
                  0 "IDENT:alice" eq_refl eq_refl).
    apply (f_equal (fun r => console r.1)) in H.
    + vm_compute in H. discriminate H.
    + intros E. vm_compute in E. discriminate E.
    + exact alice_first_tagged.
  - specialize (H "c0ffee" (world_of stray_ris1 stray_ris2) 0 1 stray_ris1 stray_ris2
                  1 "IDENT:alice" eq_refl eq_refl).
    apply (f_equal (fun r => console r.1)) in H.
    + vm_compute in H. discriminate H.
    + intros E. vm_compute in E. discriminate E.
    + repeat split.
      * cbn. lia.
      * intros j Hj. assert (j = 0) as -> by lia. exists "IDENTXbob". split; reflexivity.
Qed.

(** C2. The code at the failing input: two arrays of [COIN_RIS_LENGTH]
    strings that are not equal element-wise, [a,b], [c], [d] and [a],
    [b,c], [d], are reported as merchant cheating, because their
    comma-joined renderings are the same string. The adjudicator receives
    these two arrays from the two acceptances, one on each side, of a
    signed coin that has them as its shares. *)
Theorem C2_join_collision :
  comma_ris1 <> comma_ris2
  /\ length comma_ris1 = COIN_RIS_LENGTH /\ length comma_ris2 = COIN_RIS_LENGTH
  /\ determineCheater "c0ffee" 0 1 (world_of comma_ris1 comma_ris2) =
       (logged (report (MerchantCheating "c0ffee")) (world_of comma_ris1 comma_ris2), inr tt)
  /\ (let r := double_spend comma_coin (world0 Nat.even) in
      heap r.1 = [comma_ris1; comma_ris2]
      /\ r.2 = inr tt
      /\ last (console r.1) = Some (report (MerchantCheating "c0ffee"))).
Proof.
  repeat split. discriminate.
Qed.

Lemma C3_double_spend_witness :
  let w := world0 Nat.even in
  let w1 := (acceptCoin alice_coin w).1 in
  let w2 := (acceptCoin alice_coin w1).1 in
  Constructed "alice" alice_coin alice_left alice_right
  /\ random w (draws w) <> random w1 (draws w1)
  /\ determineCheater "c0ffee" 0 1 w2 =
       (logged (report (SpenderCheating "c0ffee" "alice")) w2, inr tt).
Proof.
  intros w w1 w2. split; [exact alice_constructed|].
  assert (Hsides : random w (draws w) <> random w1 (draws w1))
    by (intros E; vm_compute in E; discriminate E).
  split; [exact Hsides|].
  refine (proj1 (C3_double_spend "alice" alice_coin alice_left alice_right w w1 w2 0 1
                   _ reference_self_xor_cancels alice_constructed _ _) Hsides).
  - cbn. discriminate.
  - vm_compute; reflexivity.
  - vm_compute; reflexivity.
Defined.

(** C3, as stated, fails: when the two acceptances of Alice's coin both
    draw the left side, the two arrays hold the same shares and the
    adjudicator reports merchant cheating, which is neither spender
    cheating with the identity of Alice nor inconclusive. *)
Lemma C3_counterexample : ~ double_spend_as_stated.
Proof.
  intros H.
  pose (w := world0 (fun _ => true)).
  pose (w1 := (acceptCoin alice_coin w).1).
  pose (w2 := (acceptCoin alice_coin w1).1).
  assert (R1 : acceptCoin alice_coin w = (w1, inr 0)) by (vm_compute; reflexivity).
  assert (R2 : acceptCoin alice_coin w1 = (w2, inr 1)) by (vm_compute; reflexivity).
  destruct (H "alice" alice_coin alice_left alice_right w w1 w2 0 1 alice_constructed R1 R2)
    as [E|[_ E]];
    apply (f_equal (fun r => console r.1)) in E; vm_compute in E; discriminate E.
Qed.

Lemma C4_honest_acceptance_witness :
  Issued alice_coin alice_left alice_right
  /\ separators_kept_out alice_coin alice_left alice_right = true
  /\ exists w' ris,
       acceptCoin alice_coin (world0 Nat.even) = (w', inr ris)
       /\ heap w' !! ris = Some alice_left
       /\ length alice_left = COIN_RIS_LENGTH.
Proof.
  split; [exact alice_issued|]. split; [exact alice_separators|].
  destruct (C4_honest_acceptance alice_coin alice_left alice_right (world0 Nat.even)
              alice_issued alice_separators) as (w' & ris & lh & rh & Hrun & Hheap & Hlen & _).
  exists w', ris. repeat split; assumption.
Defined.

(** C4, as stated, fails: a coin issued like Alice's, with the shares,
    the commitments, the canonical string and the bank's signature that
    the spec asks for, but with an identifier that holds a dash, is
    refused. The dash shifts the fields of the canonical string, so that
    [parseCoin] returns one left hash, and [acceptCoin] throws the error
    of a wrong number of hashes. *)
Lemma C4_counterexample :
  ~ honest_acceptance_as_stated
  /\ acceptCoin dashed_coin (world0 Nat.even) =
       (world0 Nat.even,
        inl (Error "Invalid number of identity string hashes: expected 3, got left=1, right=3")).
Proof.
  split; [|reflexivity]. intros H.
  destruct (H dashed_coin alice_left alice_right (world0 Nat.even) dashed_issued)
    as (w' & ris & shares & Hrun & _).
  vm_compute in Hrun. discriminate Hrun.
Qed.

Lemma C5_invalid_signature_witness :
  blindSignatures_verify (signature unsigned_coin) (toString unsigned_coin) = false
  /\ acceptCoin unsigned_coin (world0 Nat.even) =
       (world0 Nat.even, inl (Error "Invalid coin signature")).
Proof.
  split; [reflexivity|]. apply C5_invalid_signature. reflexivity.
Defined.

Lemma C6_malformed_coin_witness :
  parseCoin "SHOP-20-c0ffee-357d,b79f,abba-6111,0095,092e" =
    inl (Error "Invalid identity string: SHOP received, but BANK expected")
  /\ acceptCoin (coin_of_string "SHOP-20-c0ffee-357d,b79f,abba-6111,0095,092e")
       (world0 Nat.even) =
       (world0 Nat.even,
        inl (Error "Invalid identity string: SHOP received, but BANK expected"))
  /\ acceptCoin (coin_of_string "BANK-20-c0ffee-357d,b79f-6111,0095,092e")
       (world0 Nat.even) =
       (world0 Nat.even,
        inl (Error "Invalid number of identity string hashes: expected 3, got left=2, right=3")).
Proof.
  destruct C6_malformed_coin as (Hparse & Htag & Hcount).
  split; [|split].
  - apply (Hparse _ "SHOP"); [reflexivity|discriminate].
  - apply (Htag _ _ "SHOP"); [reflexivity|reflexivity|discriminate].
  - apply (Hcount (coin_of_string "BANK-20-c0ffee-357d,b79f-6111,0095,092e")
             (world0 Nat.even) ["357d"; "b79f"] ["6111"; "0095"; "092e"]);
      [reflexivity|reflexivity|left; discriminate].
Defined.

Lemma acceptCoin_hash_mismatch_witness :
  exists w',
    acceptCoin swapped_share_coin (world0 (fun _ => true)) =
      (w', inl (Error "Invalid RIS hash at index 1: expected b79f, got 6812"))
    /\ asked w' = [(true, 0); (true, 1)].
Proof.
  destruct (acceptCoin_hash_mismatch swapped_share_coin (world0 (fun _ => true))
              ["357d"; "b79f"; "abba"] ["6111"; "0095"; "092e"]
              (<[1 := "not-a-share"]> alice_left) 1 "not-a-share" "b79f")
    as (w' & Hrun & Hasked & _); try reflexivity.
  - eexists; reflexivity.
  - eexists; reflexivity.
  - cbn. lia.
  - discriminate.
  - intros j Hj. assert (j = 0) as -> by lia. eexists. repeat split; reflexivity.
  - exists w'. split; assumption.
Defined.

(** C7. The code at the failing inputs. Alice's coin with its left share
    at index 1 replaced, the left side being drawn: the shares at the
    indices 0 and 1 of the left side are requested and the message of the
    error thrown holds the index, the commitment expected and the hash
    obtained, and no side. The forged coin, which carries the same
    commitments on its two sides: the message is the same string whether
    the left or the right side is drawn, so that nothing read off the
    message gives the side that was challenged. *)
Theorem C7_message_omits_side :
  (let r := acceptCoin swapped_share_coin (world0 (fun _ => true)) in
   r.2 = inl (Error "Invalid RIS hash at index 1: expected b79f, got 6812")
   /\ asked r.1 = [(true, 0); (true, 1)])
  /\ (let l := acceptCoin forged_coin (world0 (fun _ => true)) in
      let r := acceptCoin forged_coin (world0 (fun _ => false)) in
      l.2 = inl (Error "Invalid RIS hash at index 0: expected 0000, got 013a")
      /\ r.2 = inl (Error "Invalid RIS hash at index 0: expected 0000, got 013a")
      /\ asked l.1 = [(true, 0)] /\ asked r.1 = [(false, 0)])
  /\ ~ mismatch_names_side.
Proof.
  split; [split; reflexivity|]. split; [repeat split|].
  intros [side_of H].
  pose (wl := world0 (fun _ => true)). pose (wr := world0 (fun _ => false)).
  assert (Hl : acceptCoin forged_coin wl =
               ((acceptCoin forged_coin wl).1,
                inl (Error (ris_hash_message 0 (Some "0000") "013a"))))
    by (vm_compute; reflexivity).
  assert (Hr : acceptCoin forged_coin wr =
               ((acceptCoin forged_coin wr).1,
                inl (Error (ris_hash_message 0 (Some "0000") "013a"))))
    by (vm_compute; reflexivity).
  apply H in Hl. apply H in Hr. cbn in Hl, Hr. congruence.
Qed.

Lemma C8_single_side_witness :
  let w := world0 Nat.even in
  let w' := (acceptCoin alice_coin w).1 in
  acceptCoin alice_coin w = (w', inr 0)
  /\ draws w' = 1
  /\ asked w' = [(true, 0); (true, 1); (true, 2)].
Proof.
  intros w w'.
  assert (Hrun : acceptCoin alice_coin w = (w', inr 0)) by (vm_compute; reflexivity).
  destruct (C8_single_side alice_coin w w' 0 Hrun) as (Hd & _ & Ha & _).
  repeat split; assumption.
Defined.

Lemma C9_adjudicator_pure_witness :
  exists lines result,
    determineCheater "c0ffee" 0 1 (world_of alice_left alice_right) =
      (mkWorld [alice_left; alice_right] (fun _ => true) 0 lines [], result)
    /\ determineCheater "c0ffee" 2 0
         (mkWorld [alice_right; []; alice_left] Nat.even 5 ["earlier line"] [(true, 0)]) =
      (mkWorld [alice_right; []; alice_left] Nat.even 5 ("earlier line" :: lines) [(true, 0)],
       result).
Proof.
  exact (C9_adjudicator_pure "c0ffee" alice_left alice_right
           (world_of alice_left alice_right)
           (mkWorld [alice_right; []; alice_left] Nat.even 5 ["earlier line"] [(true, 0)])
           0 1 2 0 eq_refl eq_refl eq_refl eq_refl).
Defined.

Lemma C10_missing_hash_segments_witness :
  Str.split "-" "BANK-20-c0ffee" !! 0 = Some BANK_STR
  /\ parseCoin "BANK-20-c0ffee" = inr ([], [])
  /\ acceptCoin (coin_of_string "BANK-20-c0ffee") (world0 Nat.even) =
       (world0 Nat.even,
        inl (Error "Invalid number of identity string hashes: expected 3, got left=0, right=0")).
Proof.
  split; [reflexivity|].
  destruct (C10_missing_hash_segments (P := primitives) "BANK-20-c0ffee" eq_refl)
    as (lh & rh & Hparse & Hl & Hr & Haccept).
  assert (lh = []) as -> by (apply Hl; left; reflexivity).
  assert (rh = []) as -> by (apply Hr; left; reflexivity).
  split; [exact Hparse|].
  apply (Haccept (coin_of_string "BANK-20-c0ffee")); try reflexivity.
  - discriminate.
  - left; left; reflexivity.
Defined.

(** * Further properties of the code *)

(** ** Splitting and joining are inverse *)

Section SplitJoinInverse.

Lemma split_cons c s : exists f fs, Str.split c s = f :: fs.
Proof.
  destruct s as [|a r]; simpl; [eauto|].
  destruct (Ascii.eqb a c); [eauto|]. destruct (Str.split c r); eauto.
Qed.

Lemma join_cons_cons c x y l :
  Str.join c (x :: y :: l) = x +:+ String c (Str.join c (y :: l)).
Proof. reflexivity. Qed.

(** Joining the fields of a string gives the string back. *)
Lemma join_split c s : Str.join c (Str.split c s) = s.
Proof.
  induction s as [|a r IH]; simpl; [reflexivity|].
  destruct (split_cons c r) as (f & fs & Hr). rewrite Hr in IH |- *.
  destruct (Ascii.eqb_spec a c) as [->|_].
  - rewrite join_cons_cons, IH. reflexivity.
  - rewrite <- IH. now destruct fs.
Qed.

(** No field holds the separator. *)
Lemma split_fields_free c s : forallb (Str.free_of c) (Str.split c s) = true.
Proof.
  induction s as [|a r IH]; simpl; [reflexivity|].
  destruct (Ascii.eqb a c) eqn:Ha; simpl; [exact IH|].
  destruct (split_cons c r) as (f & fs & Hr). rewrite Hr in IH |- *.
  simpl in IH |- *. now rewrite Ha.
Qed.

(** The fields of a string free of another character are free of it. *)
Lemma split_fields_keep_free c d s :
  Str.free_of d s = true -> forallb (Str.free_of d) (Str.split c s) = true.
Proof.
  induction s as [|a r IH]; simpl; [reflexivity|].
  intros [Ha Hr]%andb_prop. specialize (IH Hr).
  destruct (Ascii.eqb a c); simpl; [exact IH|].
  destruct (split_cons c r) as (f & fs & Hs). rewrite Hs in IH |- *.
  simpl in IH |- *. now rewrite Ha.
Qed.

(** Splitting at a separator splits the list of fields. *)
Lemma split_append c s t :
  Str.split c (s +:+ String c t) = Str.split c s ++ Str.split c t.
Proof.
  induction s as [|a r IH]; simpl.
  - now rewrite Ascii.eqb_refl.
  - rewrite IH. destruct (Ascii.eqb a c); [reflexivity|].
    destruct (split_cons c r) as (f & fs & ->). reflexivity.
Qed.

(** On arrays of the same length whose elements are free of the
    separator, joining is injective. *)
Lemma join_inj c l1 l2 :
  length l1 = length l2 ->
  forallb (Str.free_of c) l1 = true -> forallb (Str.free_of c) l2 = true ->
  Str.join c l1 = Str.join c l2 -> l1 = l2.
Proof.
  intros Hlen H1 H2 Hj. destruct l1 as [|x l1], l2 as [|y l2]; try discriminate; [reflexivity|].
  rewrite <- (split_join c (x :: l1)), <- (split_join c (y :: l2)) by (congruence || assumption).
  now rewrite Hj.
Qed.

End SplitJoinInverse.

(** ** parseCoin *)

Section ParseCoinFacts.

Context {P : Primitives}.

(** The hashes read from one field of the coin string. *)
Lemma hashes_of_field (o : option string) :
  (forall h, o = Some h -> Str.free_of "-" h = true) ->
  let hashes := match o with
                | Some h => if Str.truthy h then Str.split "," h else []
                | None => []
                end in
  Str.join "," hashes = default EmptyString o
  /\ forallb (Str.free_of ",") hashes = true
  /\ forallb (Str.free_of "-") hashes = true
  /\ (hashes = [] <-> absent_or_empty o).
Proof.
  intros Hdash. destruct o as [[|a r]|]; cbn [Str.truthy default].
  - repeat split; auto. now right.
  - split; [apply join_split|]. split; [apply split_fields_free|].
    split; [apply split_fields_keep_free; now apply Hdash|].
    destruct (split_cons "," (String a r)) as (f & fs & ->).
    split; [discriminate|]. intros [H|H]; discriminate H.
  - repeat split; auto. now left.
Qed.

(** X1. Round trip. A string made of [BANK_STR], two further fields and the
    comma-joined left and right hashes, separated by dashes, parses back
    into the two arrays of hashes, when the fields hold no dash and each
    hash is a non-empty string without dash or comma. *)
Theorem parseCoin_round_trip amt id lh rh :
  Str.free_of "-" BANK_STR = true -> Str.free_of "-" amt = true ->
  Str.free_of "-" id = true ->
  forallb digest_like lh = true -> forallb digest_like rh = true ->
  parseCoin (BANK_STR +:+ "-" +:+ amt +:+ "-" +:+ id +:+ "-"
             +:+ Str.join "," lh +:+ "-" +:+ Str.join "," rh) = inr (lh, rh).
Proof.
  intros Hb Ha Hi Hl Hr.
  rewrite parseCoin_bank_tag; rewrite !split_app_sep; try assumption;
    try (apply free_of_join; [reflexivity|]; now apply digest_like_parts in Hl).
  - rewrite split_free
      by (apply free_of_join; [reflexivity|]; now apply digest_like_parts in Hr).
    cbn [lookup list_lookup]. now rewrite !hashes_of_segment.
  - reflexivity.
Qed.

(** X2. What a parse that returns tells: the leading field is [BANK_STR];
    the left hashes, joined by commas, are the fourth field and the right
    ones the fifth (the empty string when the field is absent); no hash
    holds a comma or a dash; and an array of hashes is empty exactly when
    its field is absent or empty. *)
Theorem parseCoin_returns s lh rh :
  parseCoin s = inr (lh, rh) ->
  Str.split "-" s !! 0 = Some BANK_STR
  /\ Str.join "," lh = default EmptyString (Str.split "-" s !! 3)
  /\ Str.join "," rh = default EmptyString (Str.split "-" s !! 4)
  /\ forallb (Str.free_of ",") (lh ++ rh) = true
  /\ forallb (Str.free_of "-") (lh ++ rh) = true
  /\ (lh = [] <-> absent_or_empty (Str.split "-" s !! 3))
  /\ (rh = [] <-> absent_or_empty (Str.split "-" s !! 4)).
Proof.
  unfold parseCoin.
  destruct (strict_ne (Str.split "-" s !! 0) BANK_STR) eqn:Htag; [discriminate|].
  apply strict_ne_false in Htag. intros [= <- <-].
  assert (Hdash : forall i h, Str.split "-" s !! i = Some h -> Str.free_of "-" h = true).
  { intros i h Hi. eapply forallb_lookup; [apply split_fields_free|exact Hi]. }
  destruct (hashes_of_field (Str.split "-" s !! 3) (Hdash 3)) as (J3 & C3 & D3 & E3).
  destruct (hashes_of_field (Str.split "-" s !! 4) (Hdash 4)) as (J4 & C4 & D4 & E4).
  rewrite !forallb_app, C3, C4, D3, D4. repeat split; try assumption; apply E3 || apply E4.
Qed.

(** X3. Fields after the fifth are not read: appending a dash and anything
    to a string of at least five fields does not change what [parseCoin]
    returns or throws. *)
Theorem parseCoin_trailing_fields s t :
  5 <= length (Str.split "-" s) ->
  parseCoin (s +:+ "-" +:+ t) = parseCoin s.
Proof.
  intros Hlen. unfold parseCoin.
  change (s +:+ "-" +:+ t) with (s +:+ String "-" t).
  rewrite split_append, !lookup_app_l by lia. reflexivity.
Qed.

(** X4. A dash inside the identifier shifts the fields: when the third field
    has the form [g1-g2], the part [g2] is returned as the only left hash
    and the left hashes are returned as the right hashes, whatever follows
    them. *)
Theorem parseCoin_dashed_guid amt g1 g2 lh t :
  Str.free_of "-" BANK_STR = true -> Str.free_of "-" amt = true ->
  Str.free_of "-" g1 = true -> digest_like g2 = true ->
  forallb digest_like lh = true ->
  parseCoin (BANK_STR +:+ "-" +:+ amt +:+ "-" +:+ g1 +:+ "-" +:+ g2 +:+ "-"
             +:+ Str.join "," lh +:+ "-" +:+ t) = inr ([g2], lh).
Proof.
  intros Hb Ha H1 H2 Hl.
  assert (H2' : forallb digest_like [g2] = true) by (cbn; now rewrite H2).
  pose proof (digest_like_parts _ H2') as (_ & D2 & _). cbn in D2.
  rewrite andb_true_r in D2.
  rewrite parseCoin_bank_tag; rewrite !split_app_sep; try assumption;
    try (apply free_of_join; [reflexivity|]; now apply digest_like_parts in Hl).
  - cbn [lookup list_lookup].
    pose proof (hashes_of_segment [g2] H2') as Hg. cbn [Str.join] in Hg.
    now rewrite (hashes_of_segment lh Hl), Hg.
  - reflexivity.
Qed.

End ParseCoinFacts.

Lemma parseCoin_round_trip_witness :
  parseCoin "BANK-20-c0ffee-357d,b79f,abba-6111,0095,092e" =
    inr (["357d"; "b79f"; "abba"], ["6111"; "0095"; "092e"]).
Proof.
  exact (parseCoin_round_trip (P := primitives) "20" "c0ffee" ["357d"; "b79f"; "abba"]
           ["6111"; "0095"; "092e"] eq_refl eq_refl eq_refl eq_refl eq_refl).
Defined.

Lemma parseCoin_returns_witness :
  parseCoin "BANK-20-c0ffee-357d,b79f,abba" = inr (["357d"; "b79f"; "abba"], [])
  /\ Str.join "," ["357d"; "b79f"; "abba"] = "357d,b79f,abba".
Proof.
  assert (H : parseCoin "BANK-20-c0ffee-357d,b79f,abba" = inr (["357d"; "b79f"; "abba"], []))
    by reflexivity.
  split; [exact H|]. exact (proj1 (proj2 (parseCoin_returns _ _ _ H))).
Defined.

Lemma parseCoin_trailing_fields_witness :
  parseCoin "BANK-20-c0ffee-357d,b79f,abba-6111,0095,092e-and-more" =
    inr (["357d"; "b79f"; "abba"], ["6111"; "0095"; "092e"]).
Proof.
  refine (parseCoin_trailing_fields (P := primitives)
            "BANK-20-c0ffee-357d,b79f,abba-6111,0095,092e" "and-more" _).
  cbn. lia.
Defined.

Lemma parseCoin_dashed_guid_witness :
  parseCoin "BANK-20-123e4567-e89b-357d,b79f,abba-6111,0095,092e" =
    inr (["e89b"], ["357d"; "b79f"; "abba"]).
Proof.
  exact (parseCoin_dashed_guid (P := primitives) "20" "123e4567" "e89b"
           ["357d"; "b79f"; "abba"] "6111,0095,092e" eq_refl eq_refl eq_refl eq_refl eq_refl).
Defined.

(** ** acceptCoin *)

Section AcceptCoinFacts.

Context {P : Primitives}.

(** Every share that the loop pushed passed the checks at its index,
    whether the loop ran to its end or not. *)
Lemma gather_pushed coin lh rh side :
  forall count start s r,
    gather coin lh rh side count start = (s, r) ->
    length s <= count
    /\ (forall k p, s !! k = Some p -> revealed coin lh rh side (start + k) = inr p)
    /\ match r with
       | None => length s = count
       | Some e => length s < count
                   /\ revealed coin lh rh side (start + length s) = inl e
       end.
Proof.
  induction count as [|n IH]; intros start s r; cbn [gather].
  - intros [= <- <-]. cbn. repeat split; [lia|]. intros k p Hk.
    now rewrite lookup_nil in Hk.
  - destruct (revealed coin lh rh side start) as [e|q] eqn:Hq.
    + intros [= <- <-]. cbn. rewrite Nat.add_0_r. repeat split; [lia| |lia|assumption].
      intros k p Hk. now rewrite lookup_nil in Hk.
    + destruct (gather coin lh rh side n (S start)) as [t r'] eqn:Hg. cbn [fst snd].
      intros [= <- <-]. destruct (IH (S start) t r' Hg) as (Hlen & Hall & Hend).
      cbn [length]. repeat split; [lia| |].
      * intros [|k] p; cbn.
        -- intros [= <-]. now rewrite Nat.add_0_r.
        -- intros Hk. rewrite <- Nat.add_succ_comm. now apply Hall.
      * destruct r' as [e|]; [|lia]. destruct Hend as [Hlt He].
        split; [lia|]. now rewrite <- Nat.add_succ_comm.
Qed.

(** X5. A missing share. In the acceptance of a validly signed coin whose
    string parses into [COIN_RIS_LENGTH] hashes on each side and which has
    its two arrays of shares, let [i] be the first split index at which
    the share of the side drawn is missing or the empty string, the shares
    before it passing their checks. Then [acceptCoin] throws the
    missing-preimage error, whose message names the index and the array
    of the side drawn; the shares before [i] are in the array and nothing
    is written on the console. *)
Theorem acceptCoin_missing_preimage coin w leftHashes rightHashes shares i :
  blindSignatures_verify (signature coin) (toString coin) = true ->
  parseCoin (toString coin) = inr (leftHashes, rightHashes) ->
  length leftHashes = COIN_RIS_LENGTH -> length rightHashes = COIN_RIS_LENGTH ->
  is_Some (leftIdent coin) -> is_Some (rightIdent coin) ->
  let selectLeft := random w (draws w) in
  shares_of coin selectLeft = Some shares ->
  i < COIN_RIS_LENGTH ->
  shares !! i = None \/ shares !! i = Some EmptyString ->
  (forall j, j < i ->
     exists q, shares !! j = Some q /\ Str.truthy q = true
               /\ commitments_of leftHashes rightHashes selectLeft !! j
                  = Some (utils_hash q)) ->
  exists w',
    acceptCoin coin w =
      (w', inl (Error ("Missing preimage for index " +:+ Str.of_nat i +:+ " in "
                       +:+ (if selectLeft then "leftIdent" else "rightIdent"))))
    /\ asked w' = asked w ++ requests selectLeft 0 (S i)
    /\ heap w' = heap w ++ [take i shares]
    /\ console w' = console w.
Proof.
  intros Hv Hp Hl Hr [L HL] [R HR] selectLeft Hs Hi Hmiss Hbefore.
  assert (Hfail : revealed coin leftHashes rightHashes selectLeft i =
            inl (Error (missing_preimage_message i selectLeft))).
  { unfold revealed. rewrite Hs. destruct Hmiss as [-> | ->]; reflexivity. }
  assert (Hg : gather coin leftHashes rightHashes selectLeft COIN_RIS_LENGTH 0
               = (take i shares, Some (Error (missing_preimage_message i selectLeft)))).
  { rewrite (gather_first_failure _ _ _ _ shares i _ Hfail); [|lia..|].
    - now rewrite Nat.sub_0_r, drop_0.
    - intros j _ Hj. destruct (Hbefore j Hj) as (q & Hq & Htq & Hcq).
      exists q. split; [assumption|]. apply revealed_inr. eauto. }
  assert (Hlen : length (take i shares) = i).
  { apply length_take_le. destruct i as [|i']; [lia|].
    destruct (Hbefore i') as (q & Hq & _); [lia|]. apply lookup_lt_Some in Hq. lia. }
  eexists. rewrite acceptCoin_run. unfold acceptance.
  rewrite Hv, Hp, Hl, Hr, Nat.eqb_refl, HL, HR. cbn [negb orb]. cbn zeta.
  fold selectLeft. rewrite Hg. cbn [fst snd]. rewrite Hlen.
  split; [reflexivity|]. cbn [asked heap console]. repeat split.
Qed.

(** X6. A coin object without its [leftIdent] or its [rightIdent] property is
    refused, after the checks of the signature and of the string and
    before a side is drawn: the world is as it was. *)
Theorem acceptCoin_missing_ident coin w leftHashes rightHashes :
  blindSignatures_verify (signature coin) (toString coin) = true ->
  parseCoin (toString coin) = inr (leftHashes, rightHashes) ->
  length leftHashes = COIN_RIS_LENGTH -> length rightHashes = COIN_RIS_LENGTH ->
  leftIdent coin = None \/ rightIdent coin = None ->
  acceptCoin coin w =
    (w, inl (Error ("Coin object missing leftIdent or rightIdent properties: leftIdent="
                    +:+ JSON_stringify (leftIdent coin) +:+ ", rightIdent="
                    +:+ JSON_stringify (rightIdent coin)))).
Proof.
  intros Hv Hp Hl Hr Hmiss. rewrite acceptCoin_run. unfold acceptance.
  rewrite Hv, Hp, Hl, Hr, Nat.eqb_refl. cbn [negb orb].
  unfold missing_ident_message.
  destruct (leftIdent coin) as [L|], (rightIdent coin) as [R|]; try reflexivity.
  destruct Hmiss; discriminate.
Qed.

(** X7. [acceptCoin] returns exactly when the signature verifies, the string
    parses into [COIN_RIS_LENGTH] hashes on each side, the coin has its
    two arrays of shares, and at every split index the share of the side
    drawn is there, is not the empty string and hashes to the commitment
    of that side. *)
Theorem acceptCoin_returns_iff coin w :
  (exists w' ris, acceptCoin coin w = (w', inr ris)) <->
  blindSignatures_verify (signature coin) (toString coin) = true
  /\ exists leftHashes rightHashes shares,
      parseCoin (toString coin) = inr (leftHashes, rightHashes)
      /\ length leftHashes = COIN_RIS_LENGTH /\ length rightHashes = COIN_RIS_LENGTH
      /\ is_Some (leftIdent coin) /\ is_Some (rightIdent coin)
      /\ shares_of coin (random w (draws w)) = Some shares
      /\ forall i, i < COIN_RIS_LENGTH ->
           exists p, shares !! i = Some p /\ Str.truthy p = true
                     /\ commitments_of leftHashes rightHashes (random w (draws w)) !! i
                        = Some (utils_hash p).
Proof.
  rewrite acceptCoin_run. unfold acceptance. split.
  - intros (w' & ris & Hrun).
    destruct (blindSignatures_verify (signature coin) (toString coin)); [|discriminate].
    split; [reflexivity|]. cbn [negb] in Hrun.
    destruct (parseCoin (toString coin)) as [e|[lh rh]]; [discriminate|].
    destruct (Nat.eqb_spec (length lh) COIN_RIS_LENGTH) as [Hl|]; [|discriminate].
    destruct (Nat.eqb_spec (length rh) COIN_RIS_LENGTH) as [Hr|]; [|discriminate].
    cbn [negb orb] in Hrun.
    destruct (leftIdent coin) as [L|] eqn:HL; [|discriminate].
    destruct (rightIdent coin) as [R|] eqn:HR; [|discriminate]. cbn zeta in Hrun.
    destruct (gather coin lh rh (random w (draws w)) COIN_RIS_LENGTH 0) as [s [e|]] eqn:Hg;
      cbn [fst snd] in Hrun; [discriminate|].
    destruct (gather_success _ _ _ _ _ _ _ Hg) as [Hlen Hall].
    assert (exists sh, shares_of coin (random w (draws w)) = Some sh) as [sh HS].
    { unfold shares_of. rewrite HL, HR. destruct (random w (draws w)); eauto. }
    exists lh, rh, sh. repeat split; eauto.
    intros i Hi. destruct (lookup_lt_is_Some_2 s i) as [p Hp]; [lia|].
    apply Hall in Hp. apply revealed_inr in Hp as ((sh' & HS' & Hp) & Ht & Hc).
    exists p. assert (sh' = sh) as -> by congruence. auto.
  - intros (-> & lh & rh & sh & -> & -> & -> & [L ->] & [R ->] & HS & Hall).
    rewrite Nat.eqb_refl. cbn [negb orb]. cbn zeta.
    rewrite (gather_complete _ _ _ _ sh).
    + cbn [fst snd]. eauto.
    + intros k Hk. cbn [Nat.add]. destruct (Hall k Hk) as (p & Hp & Ht & Hc).
      exists p. split; [assumption|]. apply revealed_inr. eauto.
Qed.

(** Closes the goal of [acceptCoin_frame] in a branch that leaves the
    world as it was. *)
Local Ltac unchanged_world :=
  cbn [fst snd];
  split; [reflexivity|]; split; [now left|]; split; [now auto|]; split; [now left|];
  split; [eexists 0; split; eassumption|reflexivity].

(** X8. What a run of [acceptCoin] does to the world, whether it returns or
    throws: the arrays that were there are untouched; at most one array is
    added, and each share in it is the share of the coin at its index on
    the side drawn, not empty, and hashes to the commitment parsed for
    that index and side; the random source is drawn at most once; the
    requests to the coin are for the side drawn at the indices 0, 1, ...
    in order, at most [COIN_RIS_LENGTH] of them; and the console gets one
    line when the run returns and none when it throws. *)
Theorem acceptCoin_frame coin w :
  let r := acceptCoin coin w in
  let selectLeft := random w (draws w) in
  random r.1 = random w
  /\ (draws r.1 = draws w \/ draws r.1 = S (draws w))
  /\ (forall a l, heap w !! a = Some l -> heap r.1 !! a = Some l)
  /\ (heap r.1 = heap w
      \/ exists pushed leftHashes rightHashes,
           heap r.1 = heap w ++ [pushed]
           /\ length pushed <= COIN_RIS_LENGTH
           /\ parseCoin (toString coin) = inr (leftHashes, rightHashes)
           /\ forall k p, pushed !! k = Some p ->
                (exists shares, shares_of coin selectLeft = Some shares
                                /\ shares !! k = Some p)
                /\ Str.truthy p = true
                /\ commitments_of leftHashes rightHashes selectLeft !! k
                   = Some (utils_hash p))
  /\ (exists n, n <= COIN_RIS_LENGTH /\ asked r.1 = asked w ++ requests selectLeft 0 n)
  /\ match r.2 with
     | inl _ => console r.1 = console w
     | inr ris => ris = length (heap w)
                  /\ console r.1 =
                       console w ++ [accepted_message coin selectLeft COIN_RIS_LENGTH]
     end.
Proof.
  cbn zeta. rewrite acceptCoin_run. unfold acceptance.
  assert (Hnone : asked w = asked w ++ requests (random w (draws w)) 0 0)
    by (cbn; now rewrite app_nil_r).
  pose proof (Nat.le_0_l COIN_RIS_LENGTH) as Hzero.
  destruct (negb (blindSignatures_verify (signature coin) (toString coin)));
    [unchanged_world|].
  destruct (parseCoin (toString coin)) as [e|[lh rh]];
    [unchanged_world|].
  destruct (negb (Nat.eqb (length lh) COIN_RIS_LENGTH)
            || negb (Nat.eqb (length rh) COIN_RIS_LENGTH));
    [unchanged_world|].
  destruct (leftIdent coin) as [L|]; [|unchanged_world].
  destruct (rightIdent coin) as [R|]; [|unchanged_world].
  cbn zeta.
  destruct (gather coin lh rh (random w (draws w)) COIN_RIS_LENGTH 0) as [s r] eqn:Hg.
  destruct (gather_pushed _ _ _ _ _ _ _ _ Hg) as (Hlen & Hall & Hend). cbn [fst snd].
  assert (Hold : forall a l, heap w !! a = Some l -> (heap w ++ [s]) !! a = Some l).
  { intros a l Ha. rewrite lookup_app_l; [assumption|]. now apply lookup_lt_Some in Ha. }
  assert (Hnew : exists pushed leftHashes rightHashes,
             heap w ++ [s] = heap w ++ [pushed]
             /\ length pushed <= COIN_RIS_LENGTH
             /\ inr (lh, rh) = inr (leftHashes, rightHashes) :> exn + _
             /\ forall k p, pushed !! k = Some p ->
                  (exists shares, shares_of coin (random w (draws w)) = Some shares
                                  /\ shares !! k = Some p)
                  /\ Str.truthy p = true
                  /\ commitments_of leftHashes rightHashes (random w (draws w)) !! k
                     = Some (utils_hash p)).
  { exists s, lh, rh. repeat split; try assumption; apply Hall in H;
      apply revealed_inr in H as (? & ? & ?); assumption. }
  destruct r as [e|]; cbn [fst snd heap random draws console asked].
  - destruct Hend as [Hlt _]. repeat split; auto. exists (S (length s)). split; [lia|reflexivity].
  - rewrite Hend. repeat split; auto. exists COIN_RIS_LENGTH. split; [lia|reflexivity].
Qed.

End AcceptCoinFacts.

(** ** determineCheater *)

Section DetermineCheaterFacts.

Context {P : Primitives}.

(** What the outcome of a run that returns in a given way says about
    [adjudicate]. *)
Lemma determineCheater_reports g p1 p2 r1 r2 w o :
  heap w !! p1 = Some r1 -> heap w !! p2 = Some r2 ->
  determineCheater g p1 p2 w = (logged (report o) w, inr tt) ->
  exists o', adjudicate g r1 r2 = inr o' /\ report o' = report o.
Proof.
  intros H1 H2. rewrite (determineCheater_run g p1 p2 r1 r2 w H1 H2).
  destruct (adjudicate g r1 r2) as [e|o']; [discriminate|].
  intros [= H]. exists o'. split; [reflexivity|].
  apply app_inv_head in H. congruence.
Qed.

Lemma scan_untagged r1 r2 :
  forall count start,
    scan count start r1 r2 = inr None <->
    forall k, k < count ->
      exists x, xor_at r1 r2 (start + k) = inr x /\ Str.startsWith x IDENT_STR = false.
Proof.
  induction count as [|n IH]; intros start; cbn [scan].
  - split; [intros _ k Hk; lia|reflexivity].
  - split.
    + destruct (xor_at r1 r2 start) as [e|x] eqn:Hx; [discriminate|].
      destruct (Str.startsWith x IDENT_STR) eqn:Ht; [discriminate|].
      intros Hrest [|k] Hk.
      * rewrite Nat.add_0_r. eauto.
      * rewrite <- Nat.add_succ_comm. apply (proj1 (IH (S start)) Hrest). lia.
    + intros Hall. destruct (Hall 0) as (x & Hx & Ht); [lia|].
      rewrite Nat.add_0_r in Hx. rewrite Hx, Ht. apply IH.
      intros k Hk. rewrite Nat.add_succ_comm. apply Hall. lia.
Qed.

Lemma scan_ext r1 r2 r1' r2' :
  forall count start,
    (forall k, k < count -> xor_at r1 r2 (start + k) = xor_at r1' r2' (start + k)) ->
    scan count start r1 r2 = scan count start r1' r2'.
Proof.
  induction count as [|n IH]; intros start Hall; cbn [scan]; [reflexivity|].
  pose proof (Hall 0) as H0. rewrite Nat.add_0_r in H0. rewrite <- H0 by lia.
  destruct (xor_at r1 r2 start) as [e|x]; [reflexivity|].
  destruct (Str.startsWith x IDENT_STR); [reflexivity|]. apply IH.
  intros k Hk. rewrite Nat.add_succ_comm. apply Hall. lia.
Qed.

Lemma scan_throws r1 r2 i e :
  xor_at r1 r2 i = inl e ->
  forall count start,
    start <= i -> i < start + count ->
    (forall j, start <= j -> j < i ->
               exists y, xor_at r1 r2 j = inr y /\ Str.startsWith y IDENT_STR = false) ->
    scan count start r1 r2 = inl e.
Proof.
  intros He. induction count as [|k IH]; intros start Hle Hlt Hbefore; [lia|].
  cbn [scan]. destruct (decide (start = i)) as [->|Hne].
  - now rewrite He.
  - destruct (Hbefore start) as (y & Hy & Hn); [lia..|].
    rewrite Hy, Hn. apply IH; [lia..|]. intros j ? ?. apply Hbefore; lia.
Qed.

(** X9. Two arrays of the same contents, and so also one array passed twice
    as the script does, are reported as merchant cheating, whatever the
    contents and their length; nothing else happens. *)
Theorem determineCheater_same_contents g p1 p2 r w :
  heap w !! p1 = Some r -> heap w !! p2 = Some r ->
  determineCheater g p1 p2 w = (logged (report (MerchantCheating g)) w, inr tt).
Proof. exact (determineCheater_identical g p1 p2 r w). Qed.

(** X10. When the two arrays have the same length and no element holds a
    comma, merchant cheating is reported exactly when the arrays are equal
    element by element. *)
Theorem determineCheater_merchant_iff_equal g p1 p2 r1 r2 w :
  heap w !! p1 = Some r1 -> heap w !! p2 = Some r2 ->
  length r1 = length r2 ->
  forallb (Str.free_of ",") r1 = true -> forallb (Str.free_of ",") r2 = true ->
  determineCheater g p1 p2 w = (logged (report (MerchantCheating g)) w, inr tt)
  <-> r1 = r2.
Proof.
  intros H1 H2 Hlen F1 F2. split.
  - intros Hrun.
    destruct (determineCheater_reports g p1 p2 r1 r2 w _ H1 H2 Hrun) as (o' & Ho' & Hrep).
    apply report_kind in Hrep. destruct o' as [g'| |]; try contradiction.
    unfold adjudicate in Ho'.
    destruct (String.eqb_spec (Str.join "," r1) (Str.join "," r2)) as [E|_].
    + now apply (join_inj ",").
    + destruct (scan COIN_RIS_LENGTH 0 r1 r2) as [e|[id|]]; discriminate.
  - intros <-. exact (determineCheater_identical g p1 p2 r1 w H1 H2).
Qed.

(** X11. The loop throws what the XOR step throws. When the arrays are not
    reported as merchant cheating and [i] is the first split index at
    which the XOR cannot be computed, no XOR result before it beginning
    with [IDENT_STR], [determineCheater] throws that exception and writes
    nothing; when one of the arrays has no element at [i], the exception
    is a [TypeError]. *)
Theorem determineCheater_throws g p1 p2 r1 r2 w i e :
  heap w !! p1 = Some r1 -> heap w !! p2 = Some r2 ->
  Str.join "," r1 <> Str.join "," r2 ->
  i < COIN_RIS_LENGTH ->
  xor_at r1 r2 i = inl e ->
  (forall j, j < i ->
     exists y, xor_at r1 r2 j = inr y /\ Str.startsWith y IDENT_STR = false) ->
  determineCheater g p1 p2 w = (w, inl e)
  /\ (r1 !! i = None \/ r2 !! i = None -> exists message, e = TypeError message).
Proof.
  intros H1 H2 Hne Hi He Hbefore. split.
  - rewrite (determineCheater_run g p1 p2 r1 r2 w H1 H2). unfold adjudicate.
    destruct (String.eqb_spec (Str.join "," r1) (Str.join "," r2)) as [E|_]; [contradiction|].
    rewrite (scan_throws r1 r2 i e He COIN_RIS_LENGTH 0); [reflexivity|lia|lia|].
    intros j _ Hj. now apply Hbefore.
  - unfold xor_at in He. intros [Hn|Hn]; rewrite Hn in He.
    + injection He as <-. eauto.
    + destruct (r1 !! i); injection He as <-; eauto.
Qed.

(** X12. The adjudicator reports that it is inconclusive exactly when the
    comma-joined renderings of the two arrays differ and at each of the
    [COIN_RIS_LENGTH] split indices the XOR is computed and its result
    does not begin with [IDENT_STR]. *)
Theorem determineCheater_inconclusive_iff g p1 p2 r1 r2 w :
  heap w !! p1 = Some r1 -> heap w !! p2 = Some r2 ->
  determineCheater g p1 p2 w = (logged (report (Inconclusive g)) w, inr tt)
  <-> Str.join "," r1 <> Str.join "," r2
      /\ forall i, i < COIN_RIS_LENGTH ->
           exists x, xor_at r1 r2 i = inr x /\ Str.startsWith x IDENT_STR = false.
Proof.
  intros H1 H2. split.
  - intros Hrun.
    destruct (determineCheater_reports g p1 p2 r1 r2 w _ H1 H2 Hrun) as (o' & Ho' & Hrep).
    apply report_kind in Hrep. destruct o' as [| |g']; try contradiction.
    unfold adjudicate in Ho'.
    destruct (String.eqb_spec (Str.join "," r1) (Str.join "," r2)) as [E|N]; [discriminate|].
    split; [assumption|].
    destruct (scan COIN_RIS_LENGTH 0 r1 r2) as [e|[id|]] eqn:Hs; try discriminate.
    intros i Hi. exact (proj1 (scan_untagged r1 r2 COIN_RIS_LENGTH 0) Hs i Hi).
  - intros [Hne Hall]. rewrite (determineCheater_run g p1 p2 r1 r2 w H1 H2).
    unfold adjudicate.
    destruct (String.eqb_spec (Str.join "," r1) (Str.join "," r2)) as [E|_]; [contradiction|].
    now rewrite (proj2 (scan_untagged r1 r2 COIN_RIS_LENGTH 0) Hall).
Qed.

(** X13. Elements at the index [COIN_RIS_LENGTH] and beyond are read only by
    the comparison of the joined renderings: two pairs of arrays that
    agree on their first [COIN_RIS_LENGTH] elements, neither pair being
    reported as merchant cheating, get the same outcome. *)
Theorem determineCheater_beyond_length g p1 p2 q1 q2 r1 r2 r1' r2' w :
  heap w !! p1 = Some r1 -> heap w !! p2 = Some r2 ->
  heap w !! q1 = Some r1' -> heap w !! q2 = Some r2' ->
  take COIN_RIS_LENGTH r1 = take COIN_RIS_LENGTH r1' ->
  take COIN_RIS_LENGTH r2 = take COIN_RIS_LENGTH r2' ->
  Str.join "," r1 <> Str.join "," r2 -> Str.join "," r1' <> Str.join "," r2' ->
  determineCheater g p1 p2 w = determineCheater g q1 q2 w.
Proof.
  intros H1 H2 H1' H2' T1 T2 Hne Hne'.
  rewrite (determineCheater_run g p1 p2 r1 r2 w H1 H2).
  rewrite (determineCheater_run g q1 q2 r1' r2' w H1' H2').
  unfold adjudicate.
  destruct (String.eqb_spec (Str.join "," r1) (Str.join "," r2)) as [E|_]; [contradiction|].
  destruct (String.eqb_spec (Str.join "," r1') (Str.join "," r2')) as [E|_]; [contradiction|].
  rewrite (scan_ext r1 r2 r1' r2' COIN_RIS_LENGTH 0); [reflexivity|].
  intros k Hk. cbn [Nat.add]. unfold xor_at.
  rewrite <- (lookup_take_lt r1 COIN_RIS_LENGTH k), <- (lookup_take_lt r2 COIN_RIS_LENGTH k),
    <- (lookup_take_lt r1' COIN_RIS_LENGTH k), <- (lookup_take_lt r2' COIN_RIS_LENGTH k) by lia.
  now rewrite T1, T2.
Qed.

(** X14. With an XOR primitive that does not depend on the order of its two
    operands, the adjudicator does not depend on the order of the two
    arrays. *)
Theorem determineCheater_symmetric g p1 p2 r1 r2 w :
  (forall a b, utils_decryptOTP a b = utils_decryptOTP b a) ->
  heap w !! p1 = Some r1 -> heap w !! p2 = Some r2 ->
  determineCheater g p1 p2 w = determineCheater g p2 p1 w.
Proof.
  intros Hcomm H1 H2.
  rewrite (determineCheater_run g p1 p2 r1 r2 w H1 H2).
  rewrite (determineCheater_run g p2 p1 r2 r1 w H2 H1).
  unfold adjudicate. rewrite (String.eqb_sym (Str.join "," r2)).
  rewrite (scan_ext r1 r2 r2 r1 COIN_RIS_LENGTH 0); [reflexivity|].
  intros k _. unfold xor_at. destruct (r1 !! (0 + k)), (r2 !! (0 + k)); auto.
Qed.

End DetermineCheaterFacts.

(** ** The script *)

Section ScriptFacts.

Context {P : Primitives}.

(** X15. When the two acceptances of a coin constructed for [owner]
    return ([COIN_RIS_LENGTH] not zero, an XOR that cancels a string with
    itself), the script runs to its end. After the two acceptances it
    writes three lines and changes nothing else: the report of the first
    adjudication (merchant cheating when the two acceptances drew the
    same side, spender cheating with the identity of the owner
    otherwise), the empty line, and the report of merchant cheating for
    the first array passed twice. *)
Theorem deposits_reports owner coin L R w w1 w2 ris1 ris2 :
  COIN_RIS_LENGTH <> 0 -> self_xor_cancels ->
  Constructed owner coin L R ->
  acceptCoin coin w = (w1, inr ris1) ->
  acceptCoin coin w1 = (w2, inr ris2) ->
  deposits coin w =
    (mkWorld (heap w2) (random w2) (draws w2)
       (console w2 ++
          [report (if Bool.eqb (random w (draws w)) (random w1 (draws w1))
                   then MerchantCheating (guid coin)
                   else SpenderCheating (guid coin) owner);
           EmptyString;
           report (MerchantCheating (guid coin))])
       (asked w2),
     inr tt).
Proof.
  intros Hn Hself C Hrun1 Hrun2.
  destruct (double_spend_outcome owner coin L R w w1 w2 ris1 ris2 Hn Hself C Hrun1 Hrun2)
    as [Hout [r1 Hr1]].
  unfold deposits. unfold bind at 1. rewrite Hrun1.
  unfold bind at 1. rewrite Hrun2.
  unfold bind at 1. rewrite Hout.
  unfold bind at 1, console_log at 1, logged. cbn [heap random draws console asked].
  rewrite (determineCheater_identical (guid coin) ris1 ris1 r1) by exact Hr1.
  unfold logged. cbn [heap random draws console asked].
  now rewrite <- !app_assoc.
Qed.

End ScriptFacts.

(** ** driver.js: the documents *)

Section CutAndChooseFacts.

Import CutAndChoose.

Lemma append_cancel_r (t : string) :
  forall a b, a +:+ t = b +:+ t -> a = b.
Proof.
  intros a b H.
  assert (Hlen : String.length a = String.length b).
  { apply (f_equal String.length) in H. rewrite !append_length in H. lia. }
  revert b H Hlen. induction a as [|c a IH]; intros [|d b]; simpl; try discriminate.
  - reflexivity.
  - intros [= -> H] [= Hlen]. f_equal. now apply IH.
Qed.

(** X16. Two cover names have the same document only when they are the same
    name: the document identifies the agent. *)
Theorem makeDocument_inj a b : makeDocument a = makeDocument b <-> a = b.
Proof.
  split; [|now intros ->]. unfold makeDocument. intros H.
  simpl in H. injection H as H. exact (append_cancel_r _ a b H).
Qed.

(** X17. What the callback passes to [verifyAndSign] does not depend on the
    selected element: two arrays yield the same argument exactly when
    they have the same length and the same elements at every index but
    the selected one. *)
Theorem all_but_hides {A} (selected : nat) (l l' : list A) :
  all_but selected l = all_but selected l'
  <-> length l = length l' /\ forall i, i <> selected -> l !! i = l' !! i.
Proof.
  unfold all_but. split.
  - intros H. split.
    + apply (f_equal length) in H. now rewrite !length_imap in H.
    + intros i Hi. apply (f_equal (fun m => m !! i)) in H.
      rewrite !list_lookup_imap in H. apply Nat.eqb_neq in Hi. rewrite Hi in H.
      destruct (l !! i), (l' !! i); cbn in H; congruence.
  - intros [Hlen Hall]. apply list_eq. intros i. rewrite !list_lookup_imap.
    destruct (Nat.eqb_spec i selected) as [->|Hne].
    + destruct (l !! selected) eqn:H1, (l' !! selected) eqn:H2; try reflexivity.
      * apply lookup_lt_Some in H1. apply lookup_ge_None_1 in H2. lia.
      * apply lookup_lt_Some in H2. apply lookup_ge_None_1 in H1. lia.
    + now rewrite (Hall i Hne).
Qed.

End CutAndChooseFacts.

(** ** The further properties on the reference instance *)

Lemma xor_ascii_comm a b : xor_ascii a b = xor_ascii b a.
Proof.
  destruct a, b. cbn. f_equal; apply xorb_comm.
Defined.

Lemma xor_comm : forall a b, xor a b = xor b a.
Proof.
  induction a as [|x a IH]; intros [|y b]; cbn; try reflexivity.
  now rewrite xor_ascii_comm, IH.
Defined.

Lemma decryptOTP_comm a b : decryptOTP a b = decryptOTP b a.
Proof.
  unfold decryptOTP. rewrite Nat.eqb_sym, xor_comm. reflexivity.
Defined.

Lemma acceptCoin_missing_preimage_witness :
  exists w',
    acceptCoin short_share_coin (world0 (fun _ => true)) =
      (w', inl (Error "Missing preimage for index 2 in leftIdent"))
    /\ heap w' = [take 2 alice_left].
Proof.
  destruct (acceptCoin_missing_preimage short_share_coin (world0 (fun _ => true))
              ["357d"; "b79f"; "abba"] ["6111"; "0095"; "092e"] (take 2 alice_left) 2)
    as (w' & Hrun & _ & Hheap & _); try reflexivity.
  - eexists; reflexivity.
  - eexists; reflexivity.
  - cbn. lia.
  - left; reflexivity.
  - intros j Hj. assert (j = 0 \/ j = 1) as [-> | ->] by lia;
      eexists; repeat split; reflexivity.
  - exists w'. split; assumption.
Defined.

Lemma acceptCoin_missing_ident_witness :
  exists message,
    acceptCoin no_right_coin (world0 Nat.even) = (world0 Nat.even, inl (Error message)).
Proof.
  eexists.
  refine (acceptCoin_missing_ident no_right_coin (world0 Nat.even)
            ["357d"; "b79f"; "abba"] ["6111"; "0095"; "092e"] _ _ _ _ _);
    try reflexivity.
  right; reflexivity.
Defined.

Lemma determineCheater_same_contents_witness :
  determineCheater "c0ffee" 0 0 (world_of alice_left alice_right) =
    (logged "Merchant is cheating with coin c0ffee" (world_of alice_left alice_right), inr tt).
Proof.
  exact (determineCheater_same_contents "c0ffee" 0 0 alice_left
           (world_of alice_left alice_right) eq_refl eq_refl).
Defined.

Lemma determineCheater_merchant_iff_equal_witness :
  determineCheater "c0ffee" 0 1 (world_of plain_ris1 plain_ris2) =
    (logged (report (MerchantCheating "c0ffee")) (world_of plain_ris1 plain_ris2), inr tt)
  <-> plain_ris1 = plain_ris2.
Proof.
  exact (determineCheater_merchant_iff_equal "c0ffee" 0 1 plain_ris1 plain_ris2
           (world_of plain_ris1 plain_ris2) eq_refl eq_refl eq_refl eq_refl eq_refl).
Defined.

Lemma determineCheater_throws_witness :
  exists message,
    determineCheater "c0ffee" 0 1 (world_of ["abc"] ["abd"; "q"]) =
      (world_of ["abc"] ["abd"; "q"], inl (TypeError message)).
Proof.
  destruct (determineCheater_throws "c0ffee" 0 1 ["abc"] ["abd"; "q"]
              (world_of ["abc"] ["abd"; "q"]) 1
              (TypeError "The first argument must be of type string or an instance of Buffer")
              eq_refl eq_refl) as [Hrun _].
  - intros E. vm_compute in E. discriminate E.
  - cbn. lia.
  - reflexivity.
  - intros j Hj. assert (j = 0) as -> by lia. eexists. split; reflexivity.
  - eexists. exact Hrun.
Defined.

Lemma determineCheater_inconclusive_iff_witness :
  determineCheater "c0ffee" 0 1 (world_of plain_ris1 plain_ris2) =
    (logged "No clear cheater identified for coin c0ffee" (world_of plain_ris1 plain_ris2),
     inr tt).
Proof.
  apply (determineCheater_inconclusive_iff "c0ffee" 0 1 plain_ris1 plain_ris2
           (world_of plain_ris1 plain_ris2) eq_refl eq_refl).
  split.
  - intros E. vm_compute in E. discriminate E.
  - intros i Hi. assert (i = 0 \/ i = 1 \/ i = 2) as [-> | [-> | ->]] by (cbn in Hi; lia);
      eexists; split; reflexivity.
Defined.

Lemma determineCheater_beyond_length_witness :
  determineCheater "c0ffee" 0 1
    (mkWorld [alice_left; alice_right; alice_left ++ ["more"]; alice_right ++ ["other"]]
       Nat.even 0 [] []) =
  determineCheater "c0ffee" 2 3
    (mkWorld [alice_left; alice_right; alice_left ++ ["more"]; alice_right ++ ["other"]]
       Nat.even 0 [] []).
Proof.
  apply (determineCheater_beyond_length "c0ffee" 0 1 2 3 alice_left alice_right
           (alice_left ++ ["more"]) (alice_right ++ ["other"])); try reflexivity.
  - intros E. vm_compute in E. discriminate E.
  - intros E. vm_compute in E. discriminate E.
Defined.

Lemma determineCheater_symmetric_witness :
  determineCheater "c0ffee" 0 1 (world_of alice_left alice_right) =
  determineCheater "c0ffee" 1 0 (world_of alice_left alice_right).
Proof.
  exact (determineCheater_symmetric "c0ffee" 0 1 alice_left alice_right
           (world_of alice_left alice_right) decryptOTP_comm eq_refl eq_refl).
Defined.

Lemma deposits_reports_witness :
  console (deposits alice_coin (world0 Nat.even)).1 =
    ["Coin accepted: GUID=c0ffee, Amount=20, Selected=left, RIS length=3";
     "Coin accepted: GUID=c0ffee, Amount=20, Selected=right, RIS length=3";
     "Double spending detected for coin c0ffee! Cheater is alice";
     EmptyString;
     "Merchant is cheating with coin c0ffee"].
Proof.
  rewrite (deposits_reports "alice" alice_coin alice_left alice_right (world0 Nat.even)
             (acceptCoin alice_coin (world0 Nat.even)).1
             (acceptCoin alice_coin (acceptCoin alice_coin (world0 Nat.even)).1).1 0 1).
  - reflexivity.
  - cbn. discriminate.
  - exact reference_self_xor_cancels.
  - exact alice_constructed.
  - vm_compute; reflexivity.
  - vm_compute; reflexivity.
Defined.
